(** * alpine-lift: the provisioning steps of [pkg/lift/execute.go]

    A shallow embedding of the step functions of the [lift] package and
    of the generic directive patcher they rely on.  Every interaction
    with the host (external commands, the init system, the file system,
    the process table, downloads) is an explicit call recorded in a
    trace; the host's answers come from an oracle that sees the calls
    made so far, so that a step is a function from a host to a result,
    a trace of calls and a log.

    Every call is taken to return: a command that hangs, or a write to
    a pipe that nobody reads, has no run in this model. *)

From Stdlib Require Import Ascii NArith Lia.
From stdpp Require Import base option list strings gmap.

Local Open Scope N_scope.

(** ** Go strings *)

Module strings.

Definition LF : ascii := "010"%char.
Definition TAB : ascii := "009"%char.
Definition nl : string := String LF "".
Definition tab : string := String TAB "".

(** [strings.HasPrefix(s, prefix)] *)
Fixpoint HasPrefix (s prefix : string) : bool :=
  match prefix, s with
  | EmptyString, _ => true
  | String a p, String b s' => if Ascii.eqb a b then HasPrefix s' p else false
  | String _ _, EmptyString => false
  end.

(** [s[n:]] for [n <= len(s)] *)
Fixpoint drop (n : nat) (s : string) : string :=
  match n, s with
  | O, _ => s
  | S n', String _ s' => drop n' s'
  | S _, EmptyString => EmptyString
  end.

(** [strings.Contains(s, substr)] *)
Fixpoint Contains (s substr : string) : bool :=
  HasPrefix s substr ||
  match s with
  | EmptyString => false
  | String _ s' => Contains s' substr
  end.

(** [strings.Cut(s, sep)]: the text before and after the first
    occurrence of [sep], when there is one. *)
Fixpoint Cut (s sep : string) : option (string * string) :=
  if HasPrefix s sep then Some (EmptyString, drop (String.length sep) s)
  else match s with
       | EmptyString => None
       | String c s' =>
           match Cut s' sep with
           | Some (before, after) => Some (String c before, after)
           | None => None
           end
       end.

(** [strings.Split(s, sep)] for a non-empty [sep]: cut at every
    occurrence, left to right.  The recursion is on the text that is
    left, which gets shorter at each cut; [fuel] bounds it. *)
Fixpoint Split_from (fuel : nat) (s sep : string) : list string :=
  match fuel with
  | O => [s]
  | S fuel' =>
      match Cut s sep with
      | None => [s]
      | Some (before, after) => before :: Split_from fuel' after sep
      end
  end.

Definition Split (s sep : string) : list string :=
  Split_from (String.length s) s sep.

(** [strings.Join(elems, sep)] *)
Fixpoint Join (elems : list string) (sep : string) : string :=
  match elems with
  | [] => ""
  | [x] => x
  | x :: rest => x +:+ sep +:+ Join rest sep
  end.

(** The ASCII part of [strings.ToLower]; Go's function agrees with it
    on ASCII text and also maps letters outside ASCII. *)
Definition lower_ascii (c : ascii) : ascii :=
  let n := N_of_ascii c in
  if (65 <=? n) && (n <=? 90) then ascii_of_N (n + 32) else c.

Fixpoint ToLowerASCII (s : string) : string :=
  match s with
  | EmptyString => EmptyString
  | String c s' => String (lower_ascii c) (ToLowerASCII s')
  end.

End strings.

(** ** Go errors *)

Inductive NumErrKind := ErrSyntax | ErrRange.

(** An [error] value that is not [nil]: a [*strconv.NumError], the
    result of [fmt.Errorf] (kept as format and arguments), or an error
    that a collaborator on the host returned. *)
Inductive error_value : Type :=
| NumError (Func Num : string) (Err : NumErrKind)
| Errorf (format : string) (args : list fmt_arg)
| HostError (msg : string)
with fmt_arg : Type :=
| ArgS (s : string)
| ArgN (n : nat)
| ArgE (e : error_value).

(** Go's [error]: [None] is [nil]. *)
Definition goerror : Type := option error_value.
Definition nil_error : goerror := None.

(** ** strconv *)

Module strconv.

(** [lower(c)] of strconv: [c | ('x' - 'X')] *)
Definition lower (c : N) : N := N.lor c 32.

Definition digit (c : ascii) : option N :=
  let n := N_of_ascii c in
  if (48 <=? n) && (n <=? 57) then Some (n - 48)
  else if (97 <=? lower n) && (lower n <=? 122) then Some (lower n - 97 + 10)
  else None.

Definition maxUint64 : N := 2 ^ 64 - 1.

(** The digit loop of [ParseUint] for an explicit base; [n] is a
    uint64, its arithmetic wraps at 2^64. *)
Fixpoint ParseUint_loop (s0 : string) (base cutoff maxVal : N)
    (s : string) (n : N) : N * goerror :=
  match s with
  | EmptyString => (n, nil_error)
  | String c s' =>
      match digit c with
      | None => (0, Some (NumError "ParseUint" s0 ErrSyntax))
      | Some d =>
          if base <=? d then (0, Some (NumError "ParseUint" s0 ErrSyntax))
          else if cutoff <=? n then (maxVal, Some (NumError "ParseUint" s0 ErrRange))
          else
            let n' := (n * base) mod 2 ^ 64 in
            let n1 := (n' + d) mod 2 ^ 64 in
            if (n1 <? n') || (maxVal <? n1)
            then (maxVal, Some (NumError "ParseUint" s0 ErrRange))
            else ParseUint_loop s0 base cutoff maxVal s' n1
      end
  end.

(** [strconv.ParseUint(s, base, bitSize)] for [2 <= base <= 36] and
    [1 <= bitSize <= 64], the only way this package calls it
    ([base = 8], [bitSize = 32]). *)
Definition ParseUint (s : string) (base bitSize : N) : N * goerror :=
  match s with
  | EmptyString => (0, Some (NumError "ParseUint" s ErrSyntax))
  | _ =>
      let cutoff := maxUint64 / base + 1 in
      let maxVal := 2 ^ bitSize - 1 in
      ParseUint_loop s base cutoff maxVal s 0
  end.

End strconv.

(** ** The provisioning document

    The fields of the alpine-data document that the steps read.  A
    pointer that a step tests against [nil] is an [option]; a slice is a
    list ([nil] and the empty slice both have length 0, and the steps
    only test the length after the [nil] test). *)

Record ResolvConf := { Domain : string; NameServers : list string }.

Record NTP := { Pools : list string; Servers : list string }.

Record Network := {
  HostName : string;
  InterfaceOpts : string;
  Proxy : string;
  ResolvConf_ : option ResolvConf;
  NTP_ : option NTP
}.

Record SSHD := { AuthorizedKeys : list string }.

Record Packages := {
  Repositories : list string;
  Update : bool;
  Upgrade : bool;
  Install : list string;
  Uninstall : list string
}.

Record MTA := { Server : string }.

Record DRP := { AssetsURL : string }.

Record WriteFile := {
  Path : string;
  Permissions : string;
  Content : string;
  ContentURL : string;
  Owner : string
}.

Record AlpineData := {
  Network_ : Network;
  SSHDConfig : SSHD;
  Packages_ : Packages;
  MTA_ : option MTA;
  ScratchDisk : string;
  DRP_ : DRP;
  WriteFiles : list WriteFile;
  MOTD : string;
  RootPasswd : string
}.

Record Lift := { Data : AlpineData }.

(** ** Calls to the host *)

Inductive ServiceAction := START | STOP | RESTART.

(** The templates of the package that the modelled steps render. *)
Inductive Template := ssmtpConf | chronyConf | repoFile.

Inductive TemplateData :=
| OfData (d : AlpineData)
| OfRepositories (r : list string).

(** Where a stream of an [exec.Cmd] goes. *)
Inductive Stream := Unset | Inherited | FromPipe.

(** An [*exec.Cmd] as the steps build it; [Env = None] is the [nil]
    environment (the child inherits the parent's). *)
Record Cmd := {
  Name : string;
  Args : list string;
  Env : option (list string);
  Stdin : Stream;
  Stdout : Stream;
  Stderr : Stream
}.

(** [exec.Command(name, args...)] *)
Definition Command (name : string) (args : list string) : Cmd :=
  {| Name := name; Args := args; Env := None;
     Stdin := Unset; Stdout := Unset; Stderr := Unset |}.

Record Process := { Executable : string }.

Record MountInfo := { Mountpoint : string }.

(** One interaction with the world outside the process. *)
Inductive Call :=
| CRun (c : Cmd)                                  (* cmd.Run() *)
| COutput (c : Cmd)                               (* cmd.Output() *)
| CStart (c : Cmd)                                (* cmd.Start() *)
| CWait (c : Cmd)                                 (* cmd.Wait() *)
| CPipeWrite (data : string)                      (* writer.Write(data) *)
| CPipeCloseWriter                                (* writer.Close() *)
| CPipeCloseReader                                (* reader.Close() *)
| CService (name : string) (a : ServiceAction)    (* doService(name, a) *)
| CSleep (seconds : nat)                          (* time.Sleep *)
| CProcesses                                      (* ps.Processes() *)
| CGetMounts                                      (* mount.GetMounts() *)
| CGenerateFile (t : Template) (d : TemplateData) (* generateFileFromTemplate *)
| CParseConfigFile (file delimiter : string) (kv : gmap string string)
| COpenOrCreate (path : string)                   (* openOrCreate(path) *)
| CWriteString (path s : string)                  (* file.WriteString(s) *)
| CClose (path : string)                          (* file.Close() *)
| CTruncate (path : string) (size : N)            (* os.Truncate *)
| COpenFile (path : string) (perm : N)            (* os.OpenFile(path, O_RDWR|O_EXCL, perm) *)
| CMkdirAll (path : string) (perm : N)            (* os.MkdirAll *)
| CWriteFile (path data : string) (perm : N)      (* ioutil.WriteFile *)
| CDownloadFile (url : string).                   (* downloadFile(url) *)

(** The host: what each call answers, given the calls made before it.
    These are the collaborators that are not part of the step functions
    (external programs, the init system behind [doService], the file
    system, the process table, the mount table, the template renderer,
    the directive patcher as called by [sshdSetup], the downloader). *)
Record Host := {
  run : list Call -> Cmd -> goerror;
  output : list Call -> Cmd -> string * goerror;
  start : list Call -> Cmd -> goerror;
  wait : list Call -> Cmd -> goerror;
  pipeWrite : list Call -> string -> goerror;
  pipeClose : list Call -> goerror;
  service : list Call -> string -> ServiceAction -> goerror;
  processes : list Call -> list Process * goerror;
  getMounts : list Call -> list MountInfo * goerror;
  generateFile : list Call -> Template -> TemplateData -> string * goerror;
  parseConfig : list Call -> string -> string -> gmap string string -> goerror;
  openFile : list Call -> string -> goerror;
  writeString : list Call -> string -> string -> goerror;
  closeFile : list Call -> string -> goerror;
  truncate : list Call -> string -> N -> goerror;
  mkdirAll : list Call -> string -> N -> goerror;
  writeFile : list Call -> string -> string -> N -> goerror;
  download : list Call -> string -> string * goerror;
  environ : list string                           (* os.Environ() *)
}.

(** ** Logging (logrus) *)

Inductive Level := DebugLevel | InfoLevel.

Record Entry := {
  level : Level;
  fields : list (string * fmt_arg);
  message : string;
  margs : list fmt_arg
}.

(** ** The step monad: calls and log entries so far, in order *)

Record World := { calls : list Call; logs : list Entry }.

Definition start_world : World := {| calls := []; logs := [] |}.

Definition M (A : Type) : Type := Host -> World -> A * World.

Definition ret {A} (a : A) : M A := fun _ w => (a, w).

Definition bind {A B} (m : M A) (k : A -> M B) : M B :=
  fun h w => let (a, w') := m h w in k a h w'.

Notation "'let!' x ':=' m 'in' k" := (bind m (fun x => k))
  (at level 10, x pattern, m at level 100, k at level 200).
Notation "'do!' m 'in' k" := (bind m (fun _ => k))
  (at level 10, m at level 100, k at level 200).
(** [if err := m; err != nil { return err }; k] *)
Notation "'try!' m 'in' k" := (bind m (fun err => match err with Some e => ret (Some e) | None => k end))
  (at level 10, m at level 100, k at level 200).

(** Make a call: record it, answer with the host's reply for the calls
    made before. *)
Definition call {A} (c : Call) (reply : Host -> list Call -> A) : M A :=
  fun h w => (reply h (calls w), {| calls := calls w ++ [c]; logs := logs w |}).

Definition log (e : Entry) : M unit :=
  fun _ w => (tt, {| calls := calls w; logs := logs w ++ [e] |}).

Definition Debug (msg : string) : M unit :=
  log {| level := DebugLevel; fields := []; message := msg; margs := [] |}.
Definition Debugf (format : string) (args : list fmt_arg) : M unit :=
  log {| level := DebugLevel; fields := []; message := format; margs := args |}.
Definition Info (msg : string) : M unit :=
  log {| level := InfoLevel; fields := []; message := msg; margs := [] |}.
Definition Infof (format : string) (args : list fmt_arg) : M unit :=
  log {| level := InfoLevel; fields := []; message := format; margs := args |}.
Definition WithField_Debug (key : string) (v : fmt_arg) (msg : string) : M unit :=
  log {| level := DebugLevel; fields := [(key, v)]; message := msg; margs := [] |}.

Definition Run (c : Cmd) : M goerror := call (CRun c) (fun h tr => run h tr c).
Definition Output (c : Cmd) : M (string * goerror) :=
  call (COutput c) (fun h tr => output h tr c).
Definition Start (c : Cmd) : M goerror := call (CStart c) (fun h tr => start h tr c).
Definition Wait (c : Cmd) : M goerror := call (CWait c) (fun h tr => wait h tr c).
Definition PipeWrite (data : string) : M goerror :=
  call (CPipeWrite data) (fun h tr => pipeWrite h tr data).
Definition PipeCloseWriter : M goerror := call CPipeCloseWriter pipeClose.
Definition PipeCloseReader : M goerror := call CPipeCloseReader pipeClose.
Definition doService (name : string) (a : ServiceAction) : M goerror :=
  call (CService name a) (fun h tr => service h tr name a).
Definition Sleep (seconds : nat) : M unit := call (CSleep seconds) (fun _ _ => tt).
Definition Processes : M (list Process * goerror) := call CProcesses processes.
Definition GetMounts : M (list MountInfo * goerror) := call CGetMounts getMounts.
Definition generateFileFromTemplate (t : Template) (d : TemplateData)
  : M (string * goerror) :=
  call (CGenerateFile t d) (fun h tr => generateFile h tr t d).
Definition parseConfigFile (file delimiter : string) (kv : gmap string string)
  : M goerror :=
  call (CParseConfigFile file delimiter kv) (fun h tr => parseConfig h tr file delimiter kv).
Definition openOrCreate (path : string) : M goerror :=
  call (COpenOrCreate path) (fun h tr => openFile h tr path).
Definition OpenFile (path : string) (perm : N) : M goerror :=
  call (COpenFile path perm) (fun h tr => openFile h tr path).
Definition WriteString (path s : string) : M goerror :=
  call (CWriteString path s) (fun h tr => writeString h tr path s).
Definition Close (path : string) : M goerror :=
  call (CClose path) (fun h tr => closeFile h tr path).
Definition Truncate (path : string) (size : N) : M goerror :=
  call (CTruncate path size) (fun h tr => truncate h tr path size).
Definition MkdirAll (path : string) (perm : N) : M goerror :=
  call (CMkdirAll path perm) (fun h tr => mkdirAll h tr path perm).
Definition WriteFile_ (path data : string) (perm : N) : M goerror :=
  call (CWriteFile path data perm) (fun h tr => writeFile h tr path data perm).
Definition downloadFile (url : string) : M (string * goerror) :=
  call (CDownloadFile url) (fun h tr => download h tr url).
Definition Environ : M (list string) := fun h w => (environ h, w).

(** [for _, x := range xs { ... }] with a body that may [return err]:
    the loop stops at the first element whose body returns an error. *)
Fixpoint range {A} (xs : list A) (body : A -> M goerror) : M goerror :=
  match xs with
  | [] => ret nil_error
  | x :: rest => try! body x in range rest body
  end.

(** ** The steps of [execute.go] *)

Definition drpcliBin : string := "/usr/local/bin/drpcli".
Definition drpcliRCFile : string := "/etc/init.d/drpcli".
Definition chronyConfFile : string := "/etc/chrony/chrony.conf".
Definition ssmtpConfFile : string := "/etc/ssmtp/ssmtp.conf".

Definition nonempty (s : string) : bool := negb (String.eqb s "").

Section Steps.

(** What the steps use and this file of the package does not define:
    Go's [strings.ToLower] and [filepath.Dir], the package-level flag
    [silent], and the method [getSSHDKVMap] that derives the sshd
    directives from the document. *)
Variable ToLower : string -> string.
Variable Dir : string -> string.
Variable silent : bool.
Variable getSSHDKVMap : Lift -> gmap string string.

(** executes the [hostname] command, if hostname was provided *)
Definition setHostname (l : Lift) : M goerror :=
  let fqdn := HostName (Network_ (Data l)) in
  if nonempty fqdn then
    (* Split never returns an empty slice for a non-empty separator *)
    let host := hd "" (strings.Split fqdn ".") in
    try! Run (Command "hostname" [host]) in
    try! Run (Command "setup-hostname" ["-n"; host]) in
    try! openOrCreate "/etc/hosts" in
    (* defer file.Close() *)
    let! err := WriteString "/etc/hosts"
                  ("127.0.0.1" +:+ strings.tab +:+ fqdn +:+ " " +:+ host +:+ strings.nl) in
    do! Close "/etc/hosts" in
    ret err
  else ret nil_error.

(** mtaSetup installs and configures ssmtp as MTA *)
Definition mtaSetup (l : Lift) : M goerror :=
  match MTA_ (Data l) with
  | None => do! Debug "No MTA configured" in ret nil_error
  | Some _ =>
      do! Debug "apk add ssmtp" in
      try! Run (Command "apk" ["add"; "ssmtp"]) in
      do! Debug "Generating ssmtp.conf" in
      let! (ssmtp, err) := generateFileFromTemplate ssmtpConf (OfData (Data l)) in
      match err with
      | Some e => ret (Some e)
      | None =>
          do! Debugf "Copying ssmtp.conf to %s" [ArgS ssmtpConfFile] in
          try! Run (Command "mv" [ssmtp; ssmtpConfFile]) in
          ret nil_error
      end
  end.

(** The loop of [diskSetup] over the process list. *)
Fixpoint detectDocker (procs : list Process) (dockerPresent : bool) : M bool :=
  match procs with
  | [] => ret dockerPresent
  | p :: rest =>
      do! Debugf "Process: %s" [ArgS (Executable p)] in
      if strings.Contains (ToLower (Executable p)) "docker"
      then do! Debug "Docker process detected" in detectDocker rest true
      else detectDocker rest dockerPresent
  end.

(** The loop of [diskSetup] over the mount table. *)
Fixpoint unmountVar (mnts : list MountInfo) : M unit :=
  match mnts with
  | [] => ret tt
  | mnt :: rest =>
      if strings.Contains (Mountpoint mnt) "/var"
      then
        do! Infof "Unmounting %s" [ArgS (Mountpoint mnt)] in
        do! Run (Command "umount" [Mountpoint mnt]) in
        unmountVar rest
      else unmountVar rest
  end.

(** executes the setup-disk script if scratch disk is set *)
Definition diskSetup (l : Lift) : M goerror :=
  let disk := ScratchDisk (Data l) in
  if String.eqb disk "" then
    do! Debug "No Scratch Disk defined" in ret nil_error
  else
    do! Debug "Check if Docker is running" in
    do! Sleep 3 in
    let! (procs, err) := Processes in
    match err with
    | Some e => ret (Some e)
    | None =>
        do! WithField_Debug "numprocs" (ArgN (length procs)) "Fetch process list" in
        let! dockerPresent := detectDocker procs false in
        do! (if dockerPresent
             then do! Info "Stopping Docker..." in
                  do! doService "docker" STOP in
                  Sleep 2
             else ret tt) in
        let! (mnts, _) := GetMounts in
        do! unmountVar mnts in
        do! WithField_Debug "disk" (ArgS disk) "Setup Scratch Disk" in
        let! env := Environ in
        let out := if silent then Unset else Inherited in
        let cmd :=
          {| Name := "setup-disk"; Args := ["-q"; "-m"; "data"; disk];
             Env := Some (env ++ ["VARFS=xfs"; "ERASE_DISKS=" +:+ disk;
                                  "MKFS_OPTS_VAR=-f"; "DEFAULT_DISK=none"]);
             Stdin := Unset; Stdout := out; Stderr := out |} in
        try! Run cmd in
        do! (if dockerPresent
             then do! Info "Starting Docker..." in
                  do! doService "docker" START in
                  ret tt
             else ret tt) in
        let! (swaps, err) := Output (Command "cat" ["/proc/swap"]) in
        match err with
        | Some _ => ret nil_error
        | None =>
            do! (if negb (strings.Contains swaps disk)
                 then do! Run (Command "swapon" ["-a"]) in ret tt
                 else ret tt) in
            ret nil_error
        end
    end.

(** sets the proxy *)
Definition proxySetup (l : Lift) : M goerror :=
  let proxy := Proxy (Network_ (Data l)) in
  if nonempty proxy then
    do! WithField_Debug "proxy" (ArgS proxy) "Found proxy setting" in
    try! Run (Command "setup-proxy" [proxy]) in
    ret nil_error
  else ret nil_error.

(** sets root password if needed *)
Definition rootPasswdSetup (l : Lift) : M goerror :=
  let passwd := RootPasswd (Data l) in
  if nonempty passwd then
    let chpasswdCmd :=
      {| Name := "chpasswd"; Args := []; Env := None;
         Stdin := FromPipe; Stdout := Inherited; Stderr := Inherited |} in
    let s := "root:" +:+ passwd +:+ strings.nl in
    do! Start chpasswdCmd in
    do! PipeWrite s in
    do! PipeCloseWriter in
    let! err := Wait chpasswdCmd in
    do! PipeCloseReader in
    match err with
    | Some e => ret (Some e)
    | None => ret nil_error
    end
  else ret nil_error.

(** opens or creates authorized_keys file, and adds ssh keys *)
Definition addSSHKeys (l : Lift) : M goerror :=
  let keys := AuthorizedKeys (SSHDConfig (Data l)) in
  if (0 <? length keys)%nat then
    try! openOrCreate "/root/.ssh/authorized_keys" in
    (* defer file.Close() *)
    let! err := range keys (fun key =>
                  WriteString "/root/.ssh/authorized_keys" (key +:+ strings.nl)) in
    do! Close "/root/.ssh/authorized_keys" in
    ret err
  else ret nil_error.

(** parses sshd_config, writes authorized_keys file and restarts sshd
    service *)
Definition sshdSetup (l : Lift) : M goerror :=
  try! parseConfigFile "/etc/ssh/sshd_config" " " (getSSHDKVMap l) in
  try! addSSHKeys l in
  try! doService "sshd" RESTART in
  ret nil_error.

(** call setup-dns Alpine setup script for configuring resolv.conf *)
Definition dnsSetup (l : Lift) : M goerror :=
  match ResolvConf_ (Network_ (Data l)) with
  | Some rc =>
      if (0 <? length (NameServers rc))%nat then
        try! Run (Command "setup-dns"
                    ["-d"; Domain rc; "-n"; strings.Join (NameServers rc) " "]) in
        ret nil_error
      else ret nil_error
  | None => ret nil_error
  end.

(** call setup-ntp Alpine setup script for configuring NTP *)
Definition ntpSetup (l : Lift) : M goerror :=
  match NTP_ (Network_ (Data l)) with
  | Some ntp =>
      if (0 <? length (Pools ntp))%nat || (0 <? length (Servers ntp))%nat then
        try! Run (Command "setup-ntp" ["-c"; "chrony"]) in
        do! Debug "Generating chrony.conf" in
        let! (chrony, err) := generateFileFromTemplate chronyConf (OfData (Data l)) in
        match err with
        | Some e => ret (Some e)
        | None =>
            do! Debugf "Copying chrony.conf to %s" [ArgS chronyConfFile] in
            try! Run (Command "mv" [chrony; chronyConfFile]) in
            do! Debug "Restart Chrony" in
            do! doService "chronyd" RESTART in
            ret nil_error
        end
      else ret nil_error
  | None => ret nil_error
  end.

Definition setupAPK (l : Lift) : M goerror :=
  let pkgs := Packages_ (Data l) in
  let! (rfile, err) := generateFileFromTemplate repoFile
                          (OfRepositories (Repositories pkgs)) in
  match err with
  | Some e => ret (Some e)
  | None =>
      do! Debug "Setting up repositories" in
      try! Run (Command "mv" [rfile; "/etc/apk/repositories"]) in
      try! (if Update pkgs
            then do! Debug "Executing apk update" in Run (Command "apk" ["update"])
            else ret nil_error) in
      try! (if Upgrade pkgs
            then do! Debug "Executing apk upgrade" in Run (Command "apk" ["upgrade"])
            else ret nil_error) in
      try! range (Uninstall pkgs) (fun p =>
             do! WithField_Debug "package" (ArgS p) "Executing apk del" in
             Run (Command "apk" ["del"; p])) in
      try! range (Install pkgs) (fun p =>
             do! WithField_Debug "package" (ArgS p) "Executing apk add" in
             Run (Command "apk" ["add"; p])) in
      ret nil_error
  end.

Definition setMOTD (l : Lift) : M goerror :=
  let motd := MOTD (Data l) in
  if nonempty motd then
    try! Truncate "/etc/motd" 0 in
    try! OpenFile "/etc/motd" 384 (* 0600 *) in
    (* defer file.Close() *)
    let! err := WriteString "/etc/motd" (motd +:+ strings.nl) in
    do! Close "/etc/motd" in
    ret err
  else ret nil_error.

(** The bytes that [createFiles] writes for one descriptor: the
    inline content, else the download of the content URL, else
    nothing ([var data []byte] stays nil). *)
Definition resolveContent (wf : WriteFile) : M (string * goerror) :=
  if nonempty (Content wf) then ret (Content wf, nil_error)
  else if nonempty (ContentURL wf) then downloadFile (ContentURL wf)
  else ret (EmptyString, nil_error).

(** The body of the loop of [createFiles], for one descriptor; an
    error is the loop's [return]. *)
Definition createFile (wf : WriteFile) : M goerror :=
  let '(perm, err) := strconv.ParseUint (Permissions wf) 8 32 in
  match err with
  | Some e => ret (Some (Errorf "Error reading permissions: %s" [ArgE e]))
  | None =>
      do! Infof "Creating %s" [ArgS (Path wf)] in
      let! err := MkdirAll (Dir (Path wf)) 457 (* 0711 *) in
      match err with
      | Some e =>
          ret (Some (Errorf "Error creating %s: %s" [ArgS (Dir (Path wf)); ArgE e]))
      | None =>
          let! (data, err) := resolveContent wf in
          match err with
          | Some e => ret (Some e)
          | None =>
              let! err := WriteFile_ (Path wf) data perm in
              do! (match err with
                   | Some e => Debugf "error writing file: %s" [ArgE e]
                   | None => ret tt
                   end) in
              if nonempty (Owner wf) then
                try! Run (Command "chown" [Owner wf; Path wf]) in
                ret nil_error
              else ret nil_error
          end
      end
  end.

Definition createFiles (l : Lift) : M goerror :=
  range (WriteFiles (Data l)) createFile.

(** The steps that start by testing their section of the document,
    and the test each makes. *)
Inductive GuardedStep :=
| StepHostname | StepMTA | StepDisk | StepProxy | StepRootPasswd
| StepSSHKeys | StepDNS | StepNTP | StepMOTD.

Definition step (s : GuardedStep) : Lift -> M goerror :=
  match s with
  | StepHostname => setHostname
  | StepMTA => mtaSetup
  | StepDisk => diskSetup
  | StepProxy => proxySetup
  | StepRootPasswd => rootPasswdSetup
  | StepSSHKeys => addSSHKeys
  | StepDNS => dnsSetup
  | StepNTP => ntpSetup
  | StepMOTD => setMOTD
  end.

End Steps.

(** The test that each guarded step makes on the document before it
    does anything else ([true]: the step applies). *)
Definition guard (s : GuardedStep) (l : Lift) : bool :=
  let d := Data l in
  match s with
  | StepHostname => nonempty (HostName (Network_ d))
  | StepMTA => match MTA_ d with Some _ => true | None => false end
  | StepDisk => nonempty (ScratchDisk d)
  | StepProxy => nonempty (Proxy (Network_ d))
  | StepRootPasswd => nonempty (RootPasswd d)
  | StepSSHKeys => (0 <? length (AuthorizedKeys (SSHDConfig d)))%nat
  | StepDNS =>
      match ResolvConf_ (Network_ d) with
      | Some rc => (0 <? length (NameServers rc))%nat
      | None => false
      end
  | StepNTP =>
      match NTP_ (Network_ d) with
      | Some ntp => (0 <? length (Pools ntp))%nat || (0 <? length (Servers ntp))%nat
      | None => false
      end
  | StepMOTD => nonempty (MOTD d)
  end.

(** ** The directive patcher *)

Module Patcher.

(** Modelled from the spec: the text of a file as the lines a
    line-by-line reader yields ([parseConfigFile] is not in this file
    of the package).  A line ends at a line feed; a last line without
    one is a line too. *)
Fixpoint lines (content : string) : list string :=
  match content with
  | EmptyString => []
  | String c rest =>
      if Ascii.eqb c strings.LF then EmptyString :: lines rest
      else match lines rest with
           | [] => [String c EmptyString]
           | l :: ls => String c l :: ls
           end
  end.

(** Modelled from the spec: the lines written back, each followed by
    a line feed. *)
Fixpoint unlines (ls : list string) : string :=
  match ls with
  | [] => EmptyString
  | l :: rest => l +:+ strings.nl +:+ unlines rest
  end.

(** Modelled from the spec: "split each non-empty line on the first
    occurrence of the delimiter into (directive, rest)"; a line with
    no delimiter has no directive. *)
Definition directive (delimiter line : string) : option string :=
  if String.eqb line "" then None
  else match strings.Cut line delimiter with
       | Some (d, _) => Some d
       | None => None
       end.

(** Modelled from the spec: the scan of the existing lines.  A line
    whose directive is a key of [desired] that has not been applied
    yet is replaced by [directive<delimiter>value] at its position
    and the key is marked as applied; every other line (no delimiter,
    directive not in [desired], a later duplicate) is copied. *)
Fixpoint scan (delimiter : string) (desired : gmap string string)
    (applied : gset string) (ls : list string) : list string * gset string :=
  match ls with
  | [] => ([], applied)
  | line :: rest =>
      let copy := let (out, applied') := scan delimiter desired applied rest in
                  (line :: out, applied') in
      match directive delimiter line with
      | Some d =>
          match desired !! d with
          | Some v =>
              if decide (d ∈ applied) then copy
              else
                let (out, applied') :=
                  scan delimiter desired ({[d]} ∪ applied) rest in
                ((d +:+ delimiter +:+ v) :: out, applied')
          | None => copy
          end
      | None => copy
      end
  end.

(** Modelled from the spec: "after the scan, any key in desired not
    yet applied is appended as a new line at end of file".  [order]
    is the order in which the keys of the map are visited (Go leaves
    the iteration order of a map open). *)
Fixpoint missing (delimiter : string) (applied : gset string)
    (order : list (string * string)) : list string :=
  match order with
  | [] => []
  | (k, v) :: rest =>
      if decide (k ∈ applied) then missing delimiter applied rest
      else (k +:+ delimiter +:+ v) :: missing delimiter applied rest
  end.

Definition patchLines (order : list (string * string)) (delimiter : string)
    (desired : gmap string string) (ls : list string) : list string :=
  let (out, applied) := scan delimiter desired ∅ ls in
  out ++ missing delimiter applied order.

(** Modelled from the spec: [Patch(path, delimiter, desired)] as a
    function from the content of the file at [path] to its content
    afterwards. *)
Definition Patch (order : list (string * string)) (delimiter : string)
    (desired : gmap string string) (content : string) : string :=
  unlines (patchLines order delimiter desired (lines content)).

(** A text without a line feed. *)
Definition oneLine (s : string) : bool := negb (strings.Contains s strings.nl).

End Patcher.

(** ** Worlds and hosts for stating and instantiating the theorems *)

(** The world [w] after the calls [cs]. *)
Definition after (w : World) (cs : list Call) : World :=
  {| calls := calls w ++ cs; logs := logs w |}.

(** The world [w] after the log entries [es]. *)
Definition logging (w : World) (es : list Entry) : World :=
  {| calls := calls w; logs := logs w ++ es |}.

(** The log entries of [createFiles]. *)
Definition creating (wf : WriteFile) : Entry :=
  {| level := InfoLevel; fields := []; message := "Creating %s";
     margs := [ArgS (Path wf)] |}.

Definition errorWriting (e : error_value) : Entry :=
  {| level := DebugLevel; fields := []; message := "error writing file: %s";
     margs := [ArgE e] |}.

Module Examples.

(** A host given by what it answers to commands, to service requests,
    to file writes and to downloads, and by its process list; it
    answers the same whatever was called before, and everything else
    succeeds. *)
Definition host (runs : Cmd -> goerror) (services : string -> goerror)
    (procs : list Process) (writes : string -> goerror)
    (downloads : string -> string * goerror) : Host :=
  {| run := fun _ c => runs c;
     output := fun _ _ => (EmptyString, nil_error);
     start := fun _ _ => nil_error;
     wait := fun _ c => runs c;
     pipeWrite := fun _ _ => nil_error;
     pipeClose := fun _ => nil_error;
     service := fun _ name _ => services name;
     processes := fun _ => (procs, nil_error);
     getMounts := fun _ => ([], nil_error);
     generateFile := fun _ _ _ => ("/tmp/lift", nil_error);
     parseConfig := fun _ _ _ _ => nil_error;
     openFile := fun _ _ => nil_error;
     writeString := fun _ _ _ => nil_error;
     closeFile := fun _ _ => nil_error;
     truncate := fun _ _ _ => nil_error;
     mkdirAll := fun _ _ _ => nil_error;
     writeFile := fun _ path _ _ => writes path;
     download := fun _ url => downloads url;
     environ := ["PATH=/bin"] |}.

Definition succeed {A} : A -> goerror := fun _ => nil_error.
Definition fetched : string -> string * goerror := fun _ => ("fetched", nil_error).

(** The host on which everything succeeds and nothing runs. *)
Definition okHost : Host := host succeed succeed [] succeed fetched.

Definition failing (what : string) (e : error_value) : string -> goerror :=
  fun name => if String.eqb name what then Some e else nil_error.

Definition exit1 : error_value := HostError "exit status 1".

(** The sshd service cannot be restarted. *)
Definition sshdDown : Host :=
  host succeed (failing "sshd" exit1) [] succeed fetched.

(** dockerd runs and setup-disk fails. *)
Definition dockerAndBadDisk : Host :=
  host (fun c => failing "setup-disk" exit1 (Name c)) succeed
       [ {| Executable := "init" |}; {| Executable := "dockerd" |} ]
       succeed fetched.

(** dockerd runs and every command succeeds. *)
Definition dockerRunning : Host :=
  host succeed succeed
       [ {| Executable := "init" |}; {| Executable := "dockerd" |} ]
       succeed fetched.

(** No docker process in the process list. *)
Definition noDocker : Host :=
  host succeed succeed
       [ {| Executable := "init" |}; {| Executable := "sshd" |} ]
       succeed fetched.

(** /etc/a cannot be written. *)
Definition readOnlyA : Host :=
  host succeed succeed [] (failing "/etc/a" (HostError "read-only file system")) fetched.

(** chown fails. *)
Definition noChown : Host :=
  host (fun c => failing "chown" exit1 (Name c)) succeed [] succeed fetched.

(** Downloads fail. *)
Definition offline : Host :=
  host succeed succeed [] succeed
       (fun _ => (EmptyString, Some (HostError "no route to host"))).

(** Directories cannot be created. *)
Definition noMkdir : Host :=
  {| run := run okHost; output := output okHost; start := start okHost;
     wait := wait okHost; pipeWrite := pipeWrite okHost;
     pipeClose := pipeClose okHost; service := service okHost;
     processes := processes okHost; getMounts := getMounts okHost;
     generateFile := generateFile okHost; parseConfig := parseConfig okHost;
     openFile := openFile okHost; writeString := writeString okHost;
     closeFile := closeFile okHost; truncate := truncate okHost;
     mkdirAll := fun _ _ _ => Some (HostError "permission denied");
     writeFile := writeFile okHost; download := download okHost;
     environ := environ okHost |}.

Definition noNetwork : Network :=
  {| HostName := ""; InterfaceOpts := ""; Proxy := "";
     ResolvConf_ := None; NTP_ := None |}.

Definition noPackages : Packages :=
  {| Repositories := []; Update := false; Upgrade := false;
     Install := []; Uninstall := [] |}.

(** The document with every section absent or empty. *)
Definition emptyData : AlpineData :=
  {| Network_ := noNetwork; SSHDConfig := {| AuthorizedKeys := [] |};
     Packages_ := noPackages; MTA_ := None; ScratchDisk := "";
     DRP_ := {| AssetsURL := "" |}; WriteFiles := []; MOTD := "";
     RootPasswd := "" |}.

Definition withHostName (name : string) : Lift :=
  {| Data :=
     {| Network_ := {| HostName := name; InterfaceOpts := ""; Proxy := "";
                       ResolvConf_ := None; NTP_ := None |};
        SSHDConfig := {| AuthorizedKeys := [] |};
        Packages_ := noPackages; MTA_ := None; ScratchDisk := "";
        DRP_ := {| AssetsURL := "" |}; WriteFiles := []; MOTD := "";
        RootPasswd := "" |} |}.

Definition withPackages (p : Packages) : Lift :=
  {| Data :=
     {| Network_ := noNetwork; SSHDConfig := {| AuthorizedKeys := [] |};
        Packages_ := p; MTA_ := None; ScratchDisk := "";
        DRP_ := {| AssetsURL := "" |}; WriteFiles := []; MOTD := "";
        RootPasswd := "" |} |}.

Definition withScratchDisk (disk : string) : Lift :=
  {| Data :=
     {| Network_ := noNetwork; SSHDConfig := {| AuthorizedKeys := [] |};
        Packages_ := noPackages; MTA_ := None; ScratchDisk := disk;
        DRP_ := {| AssetsURL := "" |}; WriteFiles := []; MOTD := "";
        RootPasswd := "" |} |}.

Definition withRootPasswd (passwd : string) : Lift :=
  {| Data :=
     {| Network_ := noNetwork; SSHDConfig := {| AuthorizedKeys := [] |};
        Packages_ := noPackages; MTA_ := None; ScratchDisk := "";
        DRP_ := {| AssetsURL := "" |}; WriteFiles := []; MOTD := "";
        RootPasswd := passwd |} |}.

Definition withWriteFiles (wfs : list WriteFile) : Lift :=
  {| Data :=
     {| Network_ := noNetwork; SSHDConfig := {| AuthorizedKeys := [] |};
        Packages_ := noPackages; MTA_ := None; ScratchDisk := "";
        DRP_ := {| AssetsURL := "" |}; WriteFiles := wfs; MOTD := "";
        RootPasswd := "" |} |}.

Definition withKeys (keys : list string) : Lift :=
  {| Data :=
     {| Network_ := noNetwork; SSHDConfig := {| AuthorizedKeys := keys |};
        Packages_ := noPackages; MTA_ := None; ScratchDisk := "";
        DRP_ := {| AssetsURL := "" |}; WriteFiles := []; MOTD := "";
        RootPasswd := "" |} |}.

(** The package section of the spec's ordering example. *)
Definition abc : Packages :=
  {| Repositories := ["http://dl-cdn.alpinelinux.org/alpine/edge/main"];
     Update := true; Upgrade := true;
     Install := ["a"; "b"]; Uninstall := ["c"] |}.

Definition fileA : WriteFile :=
  {| Path := "/etc/a"; Permissions := "644"; Content := "hello";
     ContentURL := ""; Owner := "" |}.
Definition fileB : WriteFile :=
  {| Path := "/etc/b"; Permissions := "600"; Content := "world";
     ContentURL := ""; Owner := "root" |}.
Definition fileBadPerm : WriteFile :=
  {| Path := "/etc/c"; Permissions := "rw-r--r--"; Content := "x";
     ContentURL := ""; Owner := "" |}.
Definition fileRemote : WriteFile :=
  {| Path := "/etc/d"; Permissions := "644"; Content := "";
     ContentURL := "http://example.com/d"; Owner := "" |}.

(** A directory function for the examples: the text before the last
    slash (Go's [filepath.Dir] on a clean absolute path of a file
    that is not directly under the root). *)
Fixpoint dirOf (path : string) : string :=
  match path with
  | EmptyString => EmptyString
  | String c rest =>
      if strings.Contains rest "/" then String c (dirOf rest) else EmptyString
  end.

Definition sshdDirectives (_ : Lift) : gmap string string :=
  {[ "PermitRootLogin" := "yes"; "PasswordAuthentication" := "no" ]}.

End Examples.


(** ** Steps that feed a command's standard input or look at the file system

    [networkSetup], [drpSetup] and [alpineSetup] make calls that the
    steps above do not: a pipe to the standard input of a command
    before it runs, a command run on a buffer, [os.Stat], and the
    rendering of two more templates.  They get a trace of their own:
    the calls above, wrapped, and the new ones. *)

Module Ext.

Inductive ExtTemplate := drpcliInit | answerFile.

Inductive XCall :=
| Base (c : Call)                             (* a call of the steps above *)
| CStdinPipe (c : Cmd)                        (* cmd.StdinPipe() *)
| CStdinWrite (c : Cmd) (s : string)          (* io.WriteString(stdin, s) *)
| CStdinClose (c : Cmd)                       (* stdin.Close() *)
| CRunInput (c : Cmd) (input : string)        (* cmd.Run() with Stdin = bytes.NewBuffer(input) *)
| CStat (path : string)                       (* os.Stat(path) *)
| CRender (t : ExtTemplate) (d : AlpineData). (* generateFileFromTemplate *)

(** What the host answers, given the calls made before.  Of the result
    of [os.Stat] the steps only look at [os.IsNotExist(err)]. *)
Record XHost := {
  xrun : list XCall -> Cmd -> goerror;
  xrunInput : list XCall -> Cmd -> string -> goerror;
  xservice : list XCall -> string -> ServiceAction -> goerror;
  xdownload : list XCall -> string -> string * goerror;
  xwriteFile : list XCall -> string -> string -> N -> goerror;
  xrender : list XCall -> ExtTemplate -> AlpineData -> string * goerror;
  xstdinPipe : list XCall -> Cmd -> goerror;
  statNotExist : list XCall -> string -> bool
}.

Record XWorld := { xcalls : list XCall; xlogs : list Entry }.

Definition xstart : XWorld := {| xcalls := []; xlogs := [] |}.

Definition XM (A : Type) : Type := XHost -> XWorld -> A * XWorld.

Definition xret {A} (a : A) : XM A := fun _ w => (a, w).

Definition xbind {A B} (m : XM A) (k : A -> XM B) : XM B :=
  fun h w => let (a, w') := m h w in k a h w'.

Notation "'let+' x ':=' m 'in' k" := (xbind m (fun x => k))
  (at level 10, x pattern, m at level 100, k at level 200).
Notation "'do+' m 'in' k" := (xbind m (fun _ => k))
  (at level 10, m at level 100, k at level 200).
(** [if err := m; err != nil { return err }; k] *)
Notation "'try+' m 'in' k" :=
  (xbind m (fun err => match err with Some e => xret (Some e) | None => k end))
  (at level 10, m at level 100, k at level 200).

Definition xcall {A} (c : XCall) (reply : XHost -> list XCall -> A) : XM A :=
  fun h w => (reply h (xcalls w), {| xcalls := xcalls w ++ [c]; xlogs := xlogs w |}).

Definition xlog (e : Entry) : XM unit :=
  fun _ w => (tt, {| xcalls := xcalls w; xlogs := xlogs w ++ [e] |}).

Definition Debug (msg : string) : XM unit :=
  xlog {| level := DebugLevel; fields := []; message := msg; margs := [] |}.
Definition Debugf (format : string) (args : list fmt_arg) : XM unit :=
  xlog {| level := DebugLevel; fields := []; message := format; margs := args |}.
Definition Info (msg : string) : XM unit :=
  xlog {| level := InfoLevel; fields := []; message := msg; margs := [] |}.
Definition Infof (format : string) (args : list fmt_arg) : XM unit :=
  xlog {| level := InfoLevel; fields := []; message := format; margs := args |}.
Definition WithField_Debug (key : string) (v : fmt_arg) (msg : string) : XM unit :=
  xlog {| level := DebugLevel; fields := [(key, v)]; message := msg; margs := [] |}.

Definition Run (c : Cmd) : XM goerror :=
  xcall (Base (CRun c)) (fun h tr => xrun h tr c).
Definition RunInput (c : Cmd) (input : string) : XM goerror :=
  xcall (CRunInput c input) (fun h tr => xrunInput h tr c input).
Definition doService (name : string) (a : ServiceAction) : XM goerror :=
  xcall (Base (CService name a)) (fun h tr => xservice h tr name a).
Definition downloadFile (url : string) : XM (string * goerror) :=
  xcall (Base (CDownloadFile url)) (fun h tr => xdownload h tr url).
Definition WriteFile_ (path data : string) (perm : N) : XM goerror :=
  xcall (Base (CWriteFile path data perm)) (fun h tr => xwriteFile h tr path data perm).
Definition generateFileFromTemplate (t : ExtTemplate) (d : AlpineData)
  : XM (string * goerror) :=
  xcall (CRender t d) (fun h tr => xrender h tr t d).
Definition StdinPipe (c : Cmd) : XM goerror :=
  xcall (CStdinPipe c) (fun h tr => xstdinPipe h tr c).
Definition StdinWrite (c : Cmd) (s : string) : XM unit :=
  xcall (CStdinWrite c s) (fun _ _ => tt).
Definition StdinClose (c : Cmd) : XM unit :=
  xcall (CStdinClose c) (fun _ _ => tt).
(** [_, err := os.Stat(path); os.IsNotExist(err)] *)
Definition StatNotExist (path : string) : XM bool :=
  xcall (CStat path) (fun h tr => statNotExist h tr path).

(** The end of [networkSetup]: run the command, restart networking. *)
Definition runInterfaces (cmd : Cmd) : XM goerror :=
  try+ Run cmd in
  let+ err := doService "networking" RESTART in
  do+ (match err with
       | Some e => Infof "%v" [ArgE e]
       | None => xret tt
       end) in
  xret nil_error.

(** configures the network interface(s) *)
Definition networkSetup (l : Lift) : XM goerror :=
  let opts := InterfaceOpts (Network_ (Data l)) in
  if String.eqb opts "" then
    (* Do auto config *)
    do+ Debug "No interface specification defined; auto-config" in
    runInterfaces (Command "setup-interfaces" ["-a"])
  else
    do+ Debug "Apply interface specification" in
    let cmd := Command "setup-interfaces" ["-i"] in
    try+ StdinPipe cmd in
    do+ StdinWrite cmd opts in
    do+ StdinClose cmd in
    (* StdinPipe has set cmd.Stdin *)
    runInterfaces {| Name := Name cmd; Args := Args cmd; Env := Env cmd;
                     Stdin := FromPipe; Stdout := Stdout cmd; Stderr := Stderr cmd |}.

(** The first half of [drpSetup]: download drpcli unless it is there. *)
Definition installDrpcli (l : Lift) : XM goerror :=
  let+ missing := StatNotExist drpcliBin in
  if missing then
    let url := AssetsURL (DRP_ (Data l)) +:+ "/drpcli.amd64.linux" in
    do+ WithField_Debug "url" (ArgS url) "Downloading drpcli" in
    let+ (drpcli, err) := downloadFile url in
    match err with
    | Some e => xret (Some e)
    | None =>
        do+ Debugf "Saving drpcli to %s" [ArgS drpcliBin] in
        try+ WriteFile_ drpcliBin drpcli 493 (* 0755 *) in
        xret nil_error
    end
  else xret nil_error.

(** The second half of [drpSetup]: install the service file unless it
    is there. *)
Definition installDrpcliService (l : Lift) : XM goerror :=
  let+ missing := StatNotExist drpcliRCFile in
  if missing then
    do+ Debug "Generating drpcli rc service file" in
    let+ (rcfile, err) := generateFileFromTemplate drpcliInit (Data l) in
    match err with
    | Some e => xret (Some e)
    | None =>
        do+ Debugf "Copying service file to %s" [ArgS drpcliRCFile] in
        try+ Run (Command "mv" [rcfile; drpcliRCFile]) in
        do+ Debug "Setting execute permission" in
        try+ Run (Command "chmod" ["+x"; drpcliRCFile]) in
        do+ Debug "Add drpcli service to default runlevel" in
        try+ Run (Command "rc-update" ["add"; "drpcli"]) in
        xret nil_error
    end
  else xret nil_error.

(** downloads drpcli and installs it as a service *)
Definition drpSetup (l : Lift) : XM goerror :=
  (* First download drpcli *)
  try+ installDrpcli l in
  (* then check RC file *)
  try+ installDrpcliService l in
  do+ Info "Starting dr-provision runner" in
  do+ doService "drpcli" START in
  xret nil_error.

(** executes the setup-alpine script, using a generated answerfile *)
Definition alpineSetup (l : Lift) : XM goerror :=
  let+ (f, err) := generateFileFromTemplate answerFile (Data l) in
  match err with
  | Some e => xret (Some e)
  | None =>
      let passwd := RootPasswd (Data l) in
      let cmd := {| Name := "setup-alpine"; Args := ["-f"; f]; Env := None;
                    Stdin := FromPipe; Stdout := Inherited; Stderr := Unset |} in
      (* setup-alpine script asks for root password on stdin *)
      let input := passwd +:+ strings.nl +:+ passwd +:+ strings.nl in
      (* Ignore any errors *)
      do+ RunInput cmd input in
      xret nil_error
  end.

(** The world [w] after the calls [cs]. *)
Definition xafter (w : XWorld) (cs : list XCall) : XWorld :=
  {| xcalls := xcalls w ++ cs; xlogs := xlogs w |}.

(** A host for the examples, given by what it answers to commands, to
    service requests and to downloads, and by the files that are
    missing; it answers the same whatever was called before. *)
Definition xhost (runs : Cmd -> goerror) (services : string -> goerror)
    (downloads : string -> string * goerror) (pipes : goerror)
    (missing : string -> bool) : XHost :=
  {| xrun := fun _ c => runs c;
     xrunInput := fun _ c _ => runs c;
     xservice := fun _ name _ => services name;
     xdownload := fun _ url => downloads url;
     xwriteFile := fun _ _ _ _ => nil_error;
     xrender := fun _ _ _ => ("/tmp/lift", nil_error);
     xstdinPipe := fun _ _ => pipes;
     statNotExist := fun _ path => missing path |}.

End Ext.

(** ** Octal numerals

    What a permission string means when it is accepted: the value of a
    text of octal digits, most significant digit first. *)

Definition isOctalDigit (c : ascii) : bool :=
  (48 <=? N_of_ascii c) && (N_of_ascii c <=? 55).

Fixpoint allOctal (s : string) : bool :=
  match s with
  | EmptyString => true
  | String c s' => isOctalDigit c && allOctal s'
  end.

Fixpoint octalValueFrom (acc : N) (s : string) : N :=
  match s with
  | EmptyString => acc
  | String c s' => octalValueFrom (acc * 8 + (N_of_ascii c - 48)) s'
  end.

Definition octalValue (s : string) : N := octalValueFrom 0 s.

(** ** More hosts and documents for the examples *)

#[global] Instance Stream_eq_dec : EqDecision Stream.
Proof. solve_decision. Defined.

#[global] Instance Cmd_eq_dec : EqDecision Cmd.
Proof. solve_decision. Defined.

Module MoreExamples.

(** A host that answers [runs] to commands and is [h] otherwise. *)
Definition withRun (runs : Cmd -> goerror) (h : Host) : Host :=
  {| run := fun _ c => runs c;
     output := output h; start := start h; wait := wait h;
     pipeWrite := pipeWrite h; pipeClose := pipeClose h; service := service h;
     processes := processes h; getMounts := getMounts h;
     generateFile := generateFile h; parseConfig := parseConfig h;
     openFile := openFile h; writeString := writeString h;
     closeFile := closeFile h; truncate := truncate h; mkdirAll := mkdirAll h;
     writeFile := writeFile h; download := download h; environ := environ h |}.

(** A host that answers [writes] to [WriteString] and is [h] otherwise. *)
Definition withWriteString (writes : string -> goerror) (h : Host) : Host :=
  {| run := run h; output := output h; start := start h; wait := wait h;
     pipeWrite := pipeWrite h; pipeClose := pipeClose h; service := service h;
     processes := processes h; getMounts := getMounts h;
     generateFile := generateFile h; parseConfig := parseConfig h;
     openFile := openFile h;
     writeString := fun _ _ s => writes s;
     closeFile := closeFile h; truncate := truncate h; mkdirAll := mkdirAll h;
     writeFile := writeFile h; download := download h; environ := environ h |}.

(** A host with the mount table [mnts] that is [h] otherwise. *)
Definition withMounts (mnts : list MountInfo) (h : Host) : Host :=
  {| run := run h; output := output h; start := start h; wait := wait h;
     pipeWrite := pipeWrite h; pipeClose := pipeClose h; service := service h;
     processes := processes h;
     getMounts := fun _ => (mnts, nil_error);
     generateFile := generateFile h; parseConfig := parseConfig h;
     openFile := openFile h; writeString := writeString h;
     closeFile := closeFile h; truncate := truncate h; mkdirAll := mkdirAll h;
     writeFile := writeFile h; download := download h; environ := environ h |}.

(** A host on which patching a configuration file answers [e] and
    that is [h] otherwise. *)
Definition withParseConfig (e : goerror) (h : Host) : Host :=
  {| run := run h; output := output h; start := start h; wait := wait h;
     pipeWrite := pipeWrite h; pipeClose := pipeClose h; service := service h;
     processes := processes h; getMounts := getMounts h;
     generateFile := generateFile h;
     parseConfig := fun _ _ _ _ => e;
     openFile := openFile h; writeString := writeString h;
     closeFile := closeFile h; truncate := truncate h; mkdirAll := mkdirAll h;
     writeFile := writeFile h; download := download h; environ := environ h |}.

(** The authorized_keys file takes the first key and then is full. *)
Definition keyFileFull : Host :=
  withWriteString
    (Examples.failing ("k2" +:+ strings.nl) (HostError "no space left on device"))
    Examples.okHost.

(** The package [b] cannot be uninstalled. *)
Definition cannotDelete : Host :=
  withRun (fun c => if bool_decide (c = Command "apk" ["del"; "b"])
                    then Some Examples.exit1 else nil_error)
          Examples.okHost.

(** dockerd runs; docker and the log volume are mounted under /var. *)
Definition mountedVar : Host :=
  withMounts [ {| Mountpoint := "/" |}; {| Mountpoint := "/var/lib/docker" |};
               {| Mountpoint := "/home" |}; {| Mountpoint := "/var/log" |} ]
             Examples.dockerRunning.

(** sshd_config cannot be patched. *)
Definition cannotPatch : Host :=
  withParseConfig (Some (HostError "permission denied")) Examples.okHost.

(** Every [ioutil.WriteFile] fails. *)
Definition readOnly : Host :=
  Examples.host Examples.succeed Examples.succeed []
    (fun _ => Some (HostError "read-only file system")) Examples.fetched.

(** chronyd cannot be restarted. *)
Definition chronydDown : Host :=
  Examples.host Examples.succeed (Examples.failing "chronyd" Examples.exit1) []
    Examples.succeed Examples.fetched.

Definition document (n : Network) (p : Packages) (mta : option MTA)
    (drp : string) : Lift :=
  {| Data :=
     {| Network_ := n; SSHDConfig := {| AuthorizedKeys := [] |};
        Packages_ := p; MTA_ := mta; ScratchDisk := "";
        DRP_ := {| AssetsURL := drp |}; WriteFiles := []; MOTD := "";
        RootPasswd := "secret" |} |}.


Definition servers : NTP := {| Pools := []; Servers := ["time.example.com"] |}.

Definition withNTP : Lift :=
  document {| HostName := ""; InterfaceOpts := ""; Proxy := "";
              ResolvConf_ := None; NTP_ := Some servers |}
           Examples.noPackages None "".

Definition resolv : ResolvConf :=
  {| Domain := "example.com"; NameServers := ["1.1.1.1"; "8.8.8.8"] |}.

Definition withDNS : Lift :=
  document {| HostName := ""; InterfaceOpts := ""; Proxy := "";
              ResolvConf_ := Some resolv; NTP_ := None |}
           Examples.noPackages None "".

Definition eth0 : string := "auto eth0" +:+ strings.nl +:+ "iface eth0 inet dhcp".

Definition withInterfaces : Lift :=
  document {| HostName := ""; InterfaceOpts := eth0; Proxy := "";
              ResolvConf_ := None; NTP_ := None |}
           Examples.noPackages None "".

Definition withDRP : Lift :=
  document Examples.noNetwork Examples.noPackages None "http://drp.example.com/files".

Definition threeDown : Packages :=
  {| Repositories := []; Update := true; Upgrade := false;
     Install := ["x"]; Uninstall := ["a"; "b"; "c"] |}.

Definition fileA2 : WriteFile :=
  {| Path := "/etc/a2"; Permissions := "0600"; Content := "again";
     ContentURL := "http://example.com/ignored"; Owner := "" |}.

(** Hosts for the steps of [Ext]. *)
Definition xok : Ext.XHost :=
  Ext.xhost Examples.succeed Examples.succeed Examples.fetched nil_error
    (fun _ => true).

(** Everything is installed already. *)
Definition xinstalled : Ext.XHost :=
  Ext.xhost Examples.succeed Examples.succeed Examples.fetched nil_error
    (fun _ => false).

(** No pipe can be opened. *)
Definition xnoPipe : Ext.XHost :=
  Ext.xhost Examples.succeed Examples.succeed Examples.fetched
    (Some (HostError "too many open files")) (fun _ => true).

(** Networking cannot be restarted. *)
Definition xnetDown : Ext.XHost :=
  Ext.xhost Examples.succeed (Examples.failing "networking" Examples.exit1)
    Examples.fetched nil_error (fun _ => true).

End MoreExamples.
(** * Properties *)

(** ** Strings *)

Lemma nonempty_true (s : string) : s <> EmptyString -> nonempty s = true.
Proof.
  intros Hs. unfold nonempty. apply negb_true_iff. now apply String.eqb_neq.
Qed.

Lemma nonempty_false (s : string) : nonempty s = false -> s = EmptyString.
Proof.
  unfold nonempty. intros H. apply negb_false_iff in H. now apply String.eqb_eq.
Qed.

Lemma append_cons (a : ascii) (s t : string) : String a s +:+ t = String a (s +:+ t).
Proof. reflexivity. Qed.

Lemma append_nil (t : string) : EmptyString +:+ t = t.
Proof. reflexivity. Qed.

Lemma HasPrefix_drop (s p : string) :
  strings.HasPrefix s p = true -> s = p +:+ strings.drop (String.length p) s.
Proof.
  revert s. induction p as [|a p IH]; intros s H.
  - reflexivity.
  - destruct s as [|b s]; simpl in H; [discriminate|].
    destruct (Ascii.eqb a b) eqn:E; [|discriminate].
    apply Ascii.eqb_eq in E. subst b. rewrite append_cons. f_equal. now apply IH.
Qed.

(** [Cut] splits the text around an occurrence of the separator. *)
Lemma Cut_nil (sep : string) :
  strings.Cut "" sep =
  if strings.HasPrefix "" sep then Some (EmptyString, strings.drop (String.length sep) "")
  else None.
Proof. reflexivity. Qed.

Lemma Cut_cons (c : ascii) (s sep : string) :
  strings.Cut (String c s) sep =
  if strings.HasPrefix (String c s) sep
  then Some (EmptyString, strings.drop (String.length sep) (String c s))
  else match strings.Cut s sep with
       | Some (before, rest) => Some (String c before, rest)
       | None => None
       end.
Proof. reflexivity. Qed.

Lemma Cut_Some (s sep before rest : string) :
  strings.Cut s sep = Some (before, rest) -> s = before +:+ sep +:+ rest.
Proof.
  revert before. induction s as [|c s IH]; intros before H.
  - rewrite Cut_nil in H.
    destruct (strings.HasPrefix "" sep) eqn:E; [|discriminate].
    inversion H; subst. rewrite append_nil. now apply HasPrefix_drop.
  - rewrite Cut_cons in H.
    destruct (strings.HasPrefix (String c s) sep) eqn:E.
    + inversion H; subst. rewrite append_nil. now apply HasPrefix_drop.
    + destruct (strings.Cut s sep) as [[b r]|] eqn:Ec; [|discriminate].
      inversion H; subst. rewrite append_cons. f_equal. now apply IH.
Qed.

Lemma HasPrefix_char (x c : ascii) (s : string) :
  strings.HasPrefix (String x s) (String c "") = Ascii.eqb c x.
Proof. simpl. destruct (Ascii.eqb c x); [now destruct s|reflexivity]. Qed.

Lemma Contains_cons (x : ascii) (s sub : string) :
  strings.Contains (String x s) sub =
  strings.HasPrefix (String x s) sub || strings.Contains s sub.
Proof. reflexivity. Qed.

(** For a separator of one character, the occurrence is the first one:
    the text before it does not contain the separator. *)
Lemma Cut_Some_before (s : string) (c : ascii) (before rest : string) :
  strings.Cut s (String c "") = Some (before, rest) ->
  strings.Contains before (String c "") = false.
Proof.
  revert before. induction s as [|x s IH]; intros before H.
  - discriminate.
  - rewrite Cut_cons, HasPrefix_char in H.
    destruct (Ascii.eqb c x) eqn:E.
    + inversion H; reflexivity.
    + destruct (strings.Cut s (String c "")) as [[b r]|] eqn:Ec; [|discriminate].
      inversion H; subst. rewrite Contains_cons, HasPrefix_char, E. now apply IH.
Qed.

Lemma Cut_None (s : string) (c : ascii) :
  strings.Cut s (String c "") = None -> strings.Contains s (String c "") = false.
Proof.
  induction s as [|x s IH]; intros H.
  - reflexivity.
  - rewrite Cut_cons, HasPrefix_char in H. rewrite Contains_cons, HasPrefix_char.
    destruct (Ascii.eqb c x) eqn:E; [discriminate|].
    destruct (strings.Cut s (String c "")) as [[b r]|] eqn:Ec; [discriminate|].
    now apply IH.
Qed.

(** The first element of [Split(s, sep)] is the text before the first
    separator, or all of [s] when there is none. *)
Lemma Split_head (s : string) (c : ascii) :
  hd EmptyString (strings.Split s (String c "")) =
  match strings.Cut s (String c "") with
  | Some (before, _) => before
  | None => s
  end.
Proof.
  unfold strings.Split. destruct s as [|x s]; [reflexivity|].
  cbn [String.length strings.Split_from].
  now destruct (strings.Cut (String x s) (String c "")) as [[b r]|].
Qed.

Lemma Split_head_spec (s : string) (c : ascii) :
  let host := hd EmptyString (strings.Split s (String c "")) in
  strings.Contains host (String c "") = false /\
  (s = host \/ exists rest, s = host +:+ String c "" +:+ rest).
Proof.
  cbv zeta. rewrite Split_head.
  destruct (strings.Cut s (String c "")) as [[b r]|] eqn:E.
  - split; [now apply Cut_Some_before in E|].
    right. exists r. now apply Cut_Some in E.
  - split; [now apply Cut_None|now left].
Qed.

(** ** Running a step

    [mred] unfolds the operations of the step monad and the calls;
    [trace_eq] compares two results up to the bracketing of the
    trace. *)

Ltac mred :=
  unfold Debug, Debugf, Info, Infof, WithField_Debug,
    Run, Output, Start, Wait, PipeWrite, PipeCloseWriter, PipeCloseReader,
    doService, Sleep, Processes, GetMounts, generateFileFromTemplate,
    parseConfigFile, openOrCreate, OpenFile, WriteString, Close, Truncate,
    MkdirAll, WriteFile_, downloadFile, Environ, after, logging in *;
  unfold bind, ret, call, log in *; simpl.

Ltac trace_eq := rewrite <- ?app_assoc; simpl; try reflexivity.

(** ** The hostname step *)

(** C4. For every non-empty host name, on a host where the two
    commands and the opening of the hosts file succeed: the short name
    is the text before the first dot (it has no dot, and the host name
    is the short name alone or the short name, a dot and the rest); the
    step runs [hostname <short>], then [setup-hostname -n <short>],
    then opens /etc/hosts and writes the line
    "127.0.0.1<tab><fqdn> <short><newline>" to it, and nothing else;
    its result is the result of that write. *)
Theorem setHostname_appends_hosts_line (l : Lift) (h : Host) (w : World) :
  let fqdn := HostName (Network_ (Data l)) in
  let host := hd EmptyString (strings.Split fqdn ".") in
  let line := "127.0.0.1" +:+ strings.tab +:+ fqdn +:+ " " +:+ host +:+ strings.nl in
  let runtime := Command "hostname" [host] in
  let persistent := Command "setup-hostname" ["-n"; host] in
  let before_write := [CRun runtime; CRun persistent; COpenOrCreate "/etc/hosts"] in
  fqdn <> EmptyString ->
  run h (calls w) runtime = nil_error ->
  run h (calls w ++ [CRun runtime]) persistent = nil_error ->
  openFile h (calls w ++ [CRun runtime; CRun persistent]) "/etc/hosts" = nil_error ->
  strings.Contains host "." = false /\
  (fqdn = host \/ exists rest, fqdn = host +:+ "." +:+ rest) /\
  setHostname l h w =
    (writeString h (calls w ++ before_write) "/etc/hosts" line,
     after w (before_write ++ [CWriteString "/etc/hosts" line; CClose "/etc/hosts"])).
Proof.
  intros fqdn host line runtime persistent before_write Hne Hrun1 Hrun2 Hopen.
  destruct (Split_head_spec fqdn "."%char) as [Hdot Hsplit].
  split; [exact Hdot|]. split; [exact Hsplit|].
  unfold setHostname. fold fqdn. rewrite (nonempty_true _ Hne). fold host.
  mred. fold runtime persistent. rewrite Hrun1. simpl.
  rewrite Hrun2. simpl. rewrite <- app_assoc. simpl.
  rewrite Hopen. simpl. now trace_eq.
Qed.

Lemma setHostname_web01 :
  ("web01.example.com" <> EmptyString /\
   run Examples.okHost [] (Command "hostname" ["web01"]) = nil_error /\
   run Examples.okHost [CRun (Command "hostname" ["web01"])]
     (Command "setup-hostname" ["-n"; "web01"]) = nil_error /\
   openFile Examples.okHost
     [CRun (Command "hostname" ["web01"]);
      CRun (Command "setup-hostname" ["-n"; "web01"])] "/etc/hosts" = nil_error) /\
  strings.Contains "web01" "." = false /\
  ("web01.example.com" = "web01" \/
   exists rest, "web01.example.com" = "web01" +:+ "." +:+ rest) /\
  setHostname (Examples.withHostName "web01.example.com") Examples.okHost start_world =
    (nil_error,
     {| calls :=
          [CRun (Command "hostname" ["web01"]);
           CRun (Command "setup-hostname" ["-n"; "web01"]);
           COpenOrCreate "/etc/hosts";
           CWriteString "/etc/hosts"
             ("127.0.0.1" +:+ strings.tab +:+ "web01.example.com web01" +:+ strings.nl);
           CClose "/etc/hosts"];
        logs := [] |}).
Proof.
  split; [repeat split; done|].
  apply (setHostname_appends_hosts_line
           (Examples.withHostName "web01.example.com") Examples.okHost start_world);
    [done|reflexivity|reflexivity|reflexivity].
Defined.

(** ** The root password step *)

(** C9. With a non-empty password the step starts chpasswd with its
    standard input on the pipe, writes the whole line
    "root:<password><newline>" to the pipe, only then closes the
    writer, then waits for chpasswd to exit, closes the reader and
    returns: its calls are exactly these five, in this order, and its
    result is the result of the wait (an error exactly when waiting for
    the process reports one). *)
Theorem rootPasswdSetup_write_close_wait (l : Lift) (h : Host) (w : World) :
  let passwd := RootPasswd (Data l) in
  let chpasswd :=
    {| Name := "chpasswd"; Args := []; Env := None;
       Stdin := FromPipe; Stdout := Inherited; Stderr := Inherited |} in
  let line := "root:" +:+ passwd +:+ strings.nl in
  let fed := [CStart chpasswd; CPipeWrite line; CPipeCloseWriter] in
  passwd <> EmptyString ->
  rootPasswdSetup l h w =
    (wait h (calls w ++ fed) chpasswd,
     after w (fed ++ [CWait chpasswd; CPipeCloseReader])).
Proof.
  intros passwd chpasswd line fed Hne.
  unfold rootPasswdSetup. fold passwd. rewrite (nonempty_true _ Hne).
  mred. rewrite <- !app_assoc. simpl.
  now destruct (wait h _ _).
Qed.

Lemma rootPasswdSetup_secret :
  "secret" <> EmptyString /\
  rootPasswdSetup (Examples.withRootPasswd "secret") Examples.okHost start_world =
    (nil_error,
     {| calls :=
          [CStart {| Name := "chpasswd"; Args := []; Env := None; Stdin := FromPipe;
                     Stdout := Inherited; Stderr := Inherited |};
           CPipeWrite ("root:secret" +:+ strings.nl);
           CPipeCloseWriter;
           CWait {| Name := "chpasswd"; Args := []; Env := None; Stdin := FromPipe;
                    Stdout := Inherited; Stderr := Inherited |};
           CPipeCloseReader];
        logs := [] |}).
Proof.
  split; [done|].
  now apply (rootPasswdSetup_write_close_wait
               (Examples.withRootPasswd "secret") Examples.okHost start_world).
Defined.

(** ** Guards *)

(** C6. A guarded step whose test on the document fails (host name,
    proxy, root password or MOTD empty, no MTA section, no scratch
    disk, no authorized keys, no name servers, no NTP pools or servers)
    returns no error and makes no call to the host at all: no external
    command, no service request, no file operation.  It may write a
    debug message to the log. *)
Theorem guard_false_no_call (ToLower : string -> string) (silent : bool)
    (s : GuardedStep) (l : Lift) (h : Host) (w : World) :
  guard s l = false ->
  (step ToLower silent s l h w).1 = nil_error /\
  calls (step ToLower silent s l h w).2 = calls w.
Proof.
  destruct s; unfold guard, step; intros Hg.
  - unfold setHostname. now rewrite Hg.
  - unfold mtaSetup. now destruct (MTA_ (Data l)).
  - unfold diskSetup. apply nonempty_false in Hg. now rewrite Hg.
  - unfold proxySetup. now rewrite Hg.
  - unfold rootPasswdSetup. now rewrite Hg.
  - unfold addSSHKeys. now rewrite Hg.
  - unfold dnsSetup. destruct (ResolvConf_ _); [now rewrite Hg|done].
  - unfold ntpSetup. destruct (NTP_ _); [now rewrite Hg|done].
  - unfold setMOTD. now rewrite Hg.
Qed.

Lemma guard_false_no_call_empty_document :
  (guard StepMTA {| Data := Examples.emptyData |} = false /\
   guard StepDisk {| Data := Examples.emptyData |} = false) /\
  (mtaSetup {| Data := Examples.emptyData |} Examples.okHost start_world).1 = nil_error /\
  calls (mtaSetup {| Data := Examples.emptyData |} Examples.okHost start_world).2 = [] /\
  (diskSetup strings.ToLowerASCII false {| Data := Examples.emptyData |}
     Examples.okHost start_world).1 = nil_error /\
  calls (diskSetup strings.ToLowerASCII false {| Data := Examples.emptyData |}
           Examples.okHost start_world).2 = [].
Proof.
  split; [split; reflexivity|].
  pose proof (guard_false_no_call strings.ToLowerASCII false StepMTA
                {| Data := Examples.emptyData |} Examples.okHost start_world eq_refl) as [H1 H2].
  pose proof (guard_false_no_call strings.ToLowerASCII false StepDisk
                {| Data := Examples.emptyData |} Examples.okHost start_world eq_refl) as [H3 H4].
  exact (conj H1 (conj H2 (conj H3 H4))).
Defined.

(** ** Loops *)

Lemma range_nil {A} (body : A -> M goerror) (h : Host) (w : World) :
  range [] body h w = (nil_error, w).
Proof. reflexivity. Qed.

(** One turn of a loop: the body's error ends the loop, otherwise the
    loop goes on with the rest from the world the body left. *)
Lemma range_cons {A} (x : A) (rest : list A) (body : A -> M goerror)
    (h : Host) (w : World) :
  range (x :: rest) body h w =
  match body x h w with
  | (Some e, w') => (Some e, w')
  | (None, w') => range rest body h w'
  end.
Proof.
  simpl. unfold bind, ret. now destruct (body x h w) as [[e|] w'].
Qed.

(** A loop whose body, on this host, always succeeds with one call and
    one log entry: the calls are made in the order of the list. *)
Lemma range_all_ok {A} (body : A -> M goerror) (c : A -> Call) (e : A -> Entry)
    (xs : list A) (h : Host) :
  (forall x w, body x h w =
               (nil_error, {| calls := calls w ++ [c x]; logs := logs w ++ [e x] |})) ->
  forall w, range xs body h w =
            (nil_error, {| calls := calls w ++ map c xs; logs := logs w ++ map e xs |}).
Proof.
  intros Hbody. induction xs as [|x xs IH]; intros w.
  - rewrite range_nil. simpl. rewrite !app_nil_r. now destruct w.
  - rewrite range_cons, Hbody, IH. simpl. now trace_eq.
Qed.

(** ** The package step *)

(** C3. On a host where the template renders (to [rfile]) and the
    commands succeed, the package step returns no error and its calls
    are exactly: render the repositories template and move the result
    to /etc/apk/repositories; [apk update] if Update; [apk upgrade] if
    Upgrade; [apk del p] for each p of Uninstall in order; [apk add p]
    for each p of Install in order. *)
Theorem setupAPK_call_sequence (l : Lift) (h : Host) (w : World) (rfile : string) :
  let pkgs := Packages_ (Data l) in
  generateFile h (calls w) repoFile (OfRepositories (Repositories pkgs))
    = (rfile, nil_error) ->
  (forall tr c, run h tr c = nil_error) ->
  (setupAPK l h w).1 = nil_error /\
  calls (setupAPK l h w).2 =
    calls w ++
    [CGenerateFile repoFile (OfRepositories (Repositories pkgs));
     CRun (Command "mv" [rfile; "/etc/apk/repositories"])] ++
    (if Update pkgs then [CRun (Command "apk" ["update"])] else []) ++
    (if Upgrade pkgs then [CRun (Command "apk" ["upgrade"])] else []) ++
    map (fun p => CRun (Command "apk" ["del"; p])) (Uninstall pkgs) ++
    map (fun p => CRun (Command "apk" ["add"; p])) (Install pkgs).
Proof.
  intros pkgs Hgen Hrun. unfold setupAPK. fold pkgs.
  set (apk := fun verb p => CRun (Command "apk" [verb; p])).
  set (entry := fun msg p =>
         {| level := DebugLevel; fields := [("package", ArgS p)];
            message := msg; margs := [] |}).
  mred. rewrite Hgen. simpl. rewrite Hrun. simpl.
  destruct (Update pkgs), (Upgrade pkgs); simpl; rewrite ?Hrun; simpl;
    rewrite ?Hrun; simpl;
    rewrite (range_all_ok _ (apk "del") (entry "Executing apk del"))
      by (intros; simpl; now rewrite Hrun);
    simpl;
    rewrite (range_all_ok _ (apk "add") (entry "Executing apk add"))
      by (intros; simpl; now rewrite Hrun);
    simpl; (split; [reflexivity|now trace_eq]).
Qed.

Lemma setupAPK_update_upgrade_del_c_add_a_b :
  (generateFile Examples.okHost [] repoFile
     (OfRepositories (Repositories Examples.abc)) = ("/tmp/lift", nil_error) /\
   forall tr c, run Examples.okHost tr c = nil_error) /\
  (setupAPK (Examples.withPackages Examples.abc) Examples.okHost start_world).1
    = nil_error /\
  calls (setupAPK (Examples.withPackages Examples.abc) Examples.okHost start_world).2 =
    [CGenerateFile repoFile (OfRepositories (Repositories Examples.abc));
     CRun (Command "mv" ["/tmp/lift"; "/etc/apk/repositories"]);
     CRun (Command "apk" ["update"]);
     CRun (Command "apk" ["upgrade"]);
     CRun (Command "apk" ["del"; "c"]);
     CRun (Command "apk" ["add"; "a"]);
     CRun (Command "apk" ["add"; "b"])].
Proof.
  split; [split; reflexivity|].
  apply (setupAPK_call_sequence (Examples.withPackages Examples.abc)
           Examples.okHost start_world "/tmp/lift"); reflexivity.
Defined.

(** ** The SSHD step *)

(** C1, as the code has it.  Once the sshd configuration is patched
    and the authorized keys are appended, the step asks for a restart
    of sshd and returns the result of that request: a failed restart is
    the error of the step (it is not logged), a successful one gives no
    error. *)
Theorem sshdSetup_returns_restart_result (getSSHDKVMap : Lift -> gmap string string)
    (l : Lift) (h : Host) (w w1 : World) :
  let patch := CParseConfigFile "/etc/ssh/sshd_config" " " (getSSHDKVMap l) in
  parseConfig h (calls w) "/etc/ssh/sshd_config" " " (getSSHDKVMap l) = nil_error ->
  addSSHKeys l h (after w [patch]) = (nil_error, w1) ->
  sshdSetup getSSHDKVMap l h w =
    (service h (calls w1) "sshd" RESTART, after w1 [CService "sshd" RESTART]).
Proof.
  intros patch Hparse Hkeys. subst patch. unfold after in Hkeys. unfold sshdSetup.
  unfold bind at 1. unfold parseConfigFile at 1, call at 1. rewrite Hparse.
  unfold nil_error in *. cbv beta iota. unfold bind at 1. rewrite Hkeys.
  mred. now destruct (service h (calls w1) "sshd" RESTART).
Qed.

Lemma sshdSetup_restart_result_example :
  let l := Examples.withKeys ["ssh-ed25519 AAAA root@host"] in
  let patch := CParseConfigFile "/etc/ssh/sshd_config" " " (Examples.sshdDirectives l) in
  let keys := [COpenOrCreate "/root/.ssh/authorized_keys";
               CWriteString "/root/.ssh/authorized_keys"
                 ("ssh-ed25519 AAAA root@host" +:+ strings.nl);
               CClose "/root/.ssh/authorized_keys"] in
  (parseConfig Examples.sshdDown [] "/etc/ssh/sshd_config" " "
     (Examples.sshdDirectives l) = nil_error /\
   addSSHKeys l Examples.sshdDown (after start_world [patch]) =
     (nil_error, after start_world (patch :: keys))) /\
  sshdSetup Examples.sshdDirectives l Examples.sshdDown start_world =
    (Some Examples.exit1,
     after start_world (patch :: keys ++ [CService "sshd" RESTART])).
Proof.
  intros l patch keys. split; [split; reflexivity|].
  apply (sshdSetup_returns_restart_result Examples.sshdDirectives l
           Examples.sshdDown start_world (after start_world (patch :: keys)));
    reflexivity.
Defined.

(** C1, as stated, fails: on a host where patching and the keys succeed
    and the restart of sshd fails, the step returns the error of the
    restart and logs nothing. *)
Lemma sshdSetup_restart_failure_is_returned :
  let l := Examples.withKeys ["ssh-ed25519 AAAA root@host"] in
  let r := sshdSetup Examples.sshdDirectives l Examples.sshdDown start_world in
  (forall tr, service Examples.sshdDown tr "sshd" RESTART = Some Examples.exit1) /\
  last (calls r.2) = Some (CService "sshd" RESTART) /\
  r.1 = Some Examples.exit1 /\ r.1 <> nil_error /\ logs r.2 = [].
Proof.
  vm_compute. repeat split. discriminate.
Qed.

(** ** The disk step *)

(** C2: the run that shows the defect.  A docker process is running and
    setup-disk fails: the step stops the docker service, runs
    setup-disk, and returns its error without any request to start the
    service again.  On the same host with a setup-disk that succeeds,
    the request to start the service follows setup-disk. *)
Lemma diskSetup_failure_leaves_docker_stopped :
  let l := Examples.withScratchDisk "/dev/sdb" in
  let setup :=
    CRun {| Name := "setup-disk"; Args := ["-q"; "-m"; "data"; "/dev/sdb"];
            Env := Some ["PATH=/bin"; "VARFS=xfs"; "ERASE_DISKS=/dev/sdb";
                         "MKFS_OPTS_VAR=-f"; "DEFAULT_DISK=none"];
            Stdin := Unset; Stdout := Inherited; Stderr := Inherited |} in
  let failed := diskSetup strings.ToLowerASCII false l Examples.dockerAndBadDisk start_world in
  let passed := diskSetup strings.ToLowerASCII false l Examples.dockerRunning start_world in
  failed.1 = Some Examples.exit1 /\
  calls failed.2 =
    [CSleep 3; CProcesses; CService "docker" STOP; CSleep 2; CGetMounts; setup] /\
  ~ In (CService "docker" START) (calls failed.2) /\
  passed.1 = nil_error /\
  calls passed.2 =
    [CSleep 3; CProcesses; CService "docker" STOP; CSleep 2; CGetMounts; setup;
     CService "docker" START; COutput (Command "cat" ["/proc/swap"]);
     CRun (Command "swapon" ["-a"])].
Proof.
  vm_compute. repeat split. intros H.
  repeat (destruct H as [H|H]; [discriminate H|]). exact H.
Qed.

(** The scan of the process list makes no call, and finds docker only
    if some executable name, in lower case, contains "docker". *)
Lemma detectDocker_none (ToLower : string -> string) (procs : list Process)
    (b : bool) (h : Host) (w : World) :
  (forall p, In p procs ->
             strings.Contains (ToLower (Executable p)) "docker" = false) ->
  (detectDocker ToLower procs b h w).1 = b /\
  calls (detectDocker ToLower procs b h w).2 = calls w.
Proof.
  revert w. induction procs as [|p procs IH]; intros w Hno; [done|].
  cbn [detectDocker]. unfold bind at 1. unfold Debugf, log. cbv beta iota.
  rewrite (Hno p) by now left.
  destruct (IH (logging w [{| level := DebugLevel; fields := [];
                              message := "Process: %s";
                              margs := [ArgS (Executable p)] |}])) as [H1 H2].
  { intros q Hq. apply Hno. now right. }
  split; [exact H1|exact H2].
Qed.

(** The calls of the scan of the mount table: one umount per mount
    point that contains "/var". *)
Lemma unmountVar_calls (mnts : list MountInfo) (h : Host) (w : World) :
  calls (unmountVar mnts h w).2 =
  calls w ++
  map (fun mnt => CRun (Command "umount" [Mountpoint mnt]))
      (List.filter (fun mnt => strings.Contains (Mountpoint mnt) "/var") mnts).
Proof.
  revert w. induction mnts as [|mnt mnts IH]; intros w.
  - simpl. now rewrite app_nil_r.
  - cbn [unmountVar List.filter].
    destruct (strings.Contains (Mountpoint mnt) "/var").
    + mred. rewrite IH. simpl. now trace_eq.
    + apply IH.
Qed.

(** C8. If no executable name in the process list that the step reads
    contains "docker" (compared in lower case, as the step does), then
    among the calls that the step makes there is no request to the
    docker service: no stop, no start, no restart. *)
Theorem diskSetup_no_docker_no_service_request (ToLower : string -> string)
    (silent : bool) (l : Lift) (h : Host) (w : World) :
  (forall p, In p (processes h (calls w ++ [CSleep 3])).1 ->
             strings.Contains (ToLower (Executable p)) "docker" = false) ->
  exists new,
    calls (diskSetup ToLower silent l h w).2 = calls w ++ new /\
    forall a, ~ In (CService "docker" a) new.
Proof.
  intros Hno. unfold diskSetup.
  destruct (String.eqb (ScratchDisk (Data l)) "").
  { exists []. split; [simpl; now rewrite app_nil_r|intros a []]. }
  set (disk := ScratchDisk (Data l)).
  unfold bind at 1. unfold Debug at 1, log at 1. cbv beta iota.
  unfold bind at 1. unfold Sleep at 1, call at 1. cbv beta iota. cbn [calls logs].
  unfold bind at 1. unfold Processes at 1, call at 1. cbv beta iota. cbn [calls logs].
  destruct (processes h (calls w ++ [CSleep 3])) as [procs [e|]] eqn:Eprocs.
  { exists [CSleep 3; CProcesses]. split; [now trace_eq|].
    intros a [H|[H|[]]]; discriminate H. }
  unfold bind at 1. unfold WithField_Debug at 1, log at 1. cbv beta iota.
  cbn [calls logs].
  unfold bind at 1.
  match goal with |- context [detectDocker ToLower procs false h ?w0] =>
    destruct (detectDocker_none ToLower procs false h w0 Hno) as [Hb Hc];
    destruct (detectDocker ToLower procs false h w0) as [b wd]
  end.
  cbn [fst snd calls] in Hb, Hc. subst b.
  unfold bind at 1. unfold ret at 1.
  unfold bind at 1. unfold GetMounts at 1, call at 1. cbv beta iota.
  destruct (getMounts h (calls wd)) as [mnts merr].
  unfold bind at 1.
  match goal with |- context [unmountVar mnts h ?w0] =>
    pose proof (unmountVar_calls mnts h w0) as Hu;
    destruct (unmountVar mnts h w0) as [[] wu]
  end.
  cbn [fst snd calls] in Hu. rewrite Hc in Hu.
  set (umounts := map _ _) in Hu.
  assert (Humounts : forall a, ~ In (CService "docker" a) umounts).
  { intros a Hin. apply in_map_iff in Hin as [m [Hm _]]. discriminate Hm. }
  mred. rewrite Hu.
  match goal with |- context [run h ?tr ?c] =>
    set (setup := c); destruct (run h tr setup) as [e|] end.
  { exists ([CSleep 3; CProcesses; CGetMounts] ++ umounts ++ [CRun setup]).
    split; [simpl; now trace_eq|].
    intros a Hin. rewrite !in_app_iff in Hin.
    destruct Hin as [[H|[H|[H|[]]]]|[H|[H|[]]]]; try discriminate H.
    now apply (Humounts a). }
  simpl.
  match goal with |- context [output h ?tr ?c] =>
    destruct (output h tr c) as [swaps [e|]] end.
  { exists ([CSleep 3; CProcesses; CGetMounts] ++ umounts ++
            [CRun setup; COutput (Command "cat" ["/proc/swap"])]).
    split; [simpl; now trace_eq|].
    intros a Hin. rewrite !in_app_iff in Hin.
    destruct Hin as [[H|[H|[H|[]]]]|[H|[H|[H|[]]]]]; try discriminate H.
    now apply (Humounts a). }
  destruct (strings.Contains swaps disk); simpl.
  - exists ([CSleep 3; CProcesses; CGetMounts] ++ umounts ++
            [CRun setup; COutput (Command "cat" ["/proc/swap"])]).
    split; [simpl; now trace_eq|].
    intros a Hin. rewrite !in_app_iff in Hin.
    destruct Hin as [[H|[H|[H|[]]]]|[H|[H|[H|[]]]]]; try discriminate H.
    now apply (Humounts a).
  - exists ([CSleep 3; CProcesses; CGetMounts] ++ umounts ++
            [CRun setup; COutput (Command "cat" ["/proc/swap"]);
             CRun (Command "swapon" ["-a"])]).
    split; [simpl; now trace_eq|].
    intros a Hin. rewrite !in_app_iff in Hin.
    destruct Hin as [[H|[H|[H|[]]]]|[H|[H|[H|[H|[]]]]]]; try discriminate H.
    now apply (Humounts a).
Qed.

Lemma diskSetup_no_docker_example :
  (forall p, In p (processes Examples.noDocker ([] ++ [CSleep 3])).1 ->
             strings.Contains (strings.ToLowerASCII (Executable p)) "docker" = false) /\
  exists new,
    calls (diskSetup strings.ToLowerASCII false (Examples.withScratchDisk "/dev/sdb")
             Examples.noDocker start_world).2 = [] ++ new /\
    forall a, ~ In (CService "docker" a) new.
Proof.
  assert (H : forall p, In p (processes Examples.noDocker ([] ++ [CSleep 3])).1 ->
              strings.Contains (strings.ToLowerASCII (Executable p)) "docker" = false).
  { intros p [<-|[<-|[]]]; reflexivity. }
  split; [exact H|].
  exact (diskSetup_no_docker_no_service_request strings.ToLowerASCII false
           (Examples.withScratchDisk "/dev/sdb") Examples.noDocker start_world H).
Defined.

(** ** File materialization *)

(** One descriptor whose permissions parse, whose directory is made
    and whose content is resolved: the file is written, an error of the
    write goes to the log, and the result is that of chown when there
    is an owner, no error otherwise. *)
Lemma createFile_write (Dir : string -> string) (wf : WriteFile) (h : Host)
    (w w2 : World) (perm : N) (data : string) :
  strconv.ParseUint (Permissions wf) 8 32 = (perm, nil_error) ->
  mkdirAll h (calls w) (Dir (Path wf)) 457 = nil_error ->
  resolveContent wf h (after (logging w [creating wf]) [CMkdirAll (Dir (Path wf)) 457])
    = ((data, nil_error), w2) ->
  let w3 := after w2 [CWriteFile (Path wf) data perm] in
  let w4 := match writeFile h (calls w2) (Path wf) data perm with
            | Some e => logging w3 [errorWriting e]
            | None => w3
            end in
  let chown := Command "chown" [Owner wf; Path wf] in
  createFile Dir wf h w =
    if nonempty (Owner wf) then (run h (calls w4) chown, after w4 [CRun chown])
    else (nil_error, w4).
Proof.
  intros Hperm Hmkdir Hdata w3 w4 chown. unfold createFile. rewrite Hperm.
  unfold nil_error in *. cbv beta iota.
  unfold bind at 1. unfold Infof at 1, log at 1. cbv beta iota.
  unfold bind at 1. unfold MkdirAll at 1, call at 1. cbv beta iota. cbn [calls logs].
  rewrite Hmkdir. cbv beta iota.
  unfold bind at 1. unfold after, logging, creating in Hdata. cbn [calls logs] in Hdata.
  rewrite Hdata. cbv beta iota.
  subst w4 w3 chown. mred.
  destruct (writeFile h (calls w2) (Path wf) data perm) as [e|];
    destruct (nonempty (Owner wf)); simpl; try reflexivity;
    match goal with |- context [run h ?tr ?c] => now destruct (run h tr c) end.
Qed.

(** C5. For a descriptor [wf] followed by [rest], once its permissions
    parse, its directory is made and its content is resolved:
    - if writing the file fails with [e], the error goes to the log and
      (when [wf] has no owner, or its chown succeeds) the step goes on
      with the remaining descriptors, from the world the failed write
      left;
    - if [wf] has an owner and the chown after the write fails with
      [e], the step returns [e] at once: chown is its last call and no
      remaining descriptor is processed. *)
Theorem createFiles_write_lenient_chown_fatal (Dir : string -> string) (l : Lift)
    (wf : WriteFile) (rest : list WriteFile) (h : Host) (w w2 : World)
    (perm : N) (data : string) :
  WriteFiles (Data l) = wf :: rest ->
  strconv.ParseUint (Permissions wf) 8 32 = (perm, nil_error) ->
  mkdirAll h (calls w) (Dir (Path wf)) 457 = nil_error ->
  resolveContent wf h (after (logging w [creating wf]) [CMkdirAll (Dir (Path wf)) 457])
    = ((data, nil_error), w2) ->
  let written := writeFile h (calls w2) (Path wf) data perm in
  let w3 := after w2 [CWriteFile (Path wf) data perm] in
  let chown := Command "chown" [Owner wf; Path wf] in
  (forall e, written = Some e ->
     let w4 := logging w3 [errorWriting e] in
     (Owner wf = EmptyString ->
      createFiles Dir l h w = range rest (createFile Dir) h w4) /\
     (Owner wf <> EmptyString -> run h (calls w3) chown = nil_error ->
      createFiles Dir l h w = range rest (createFile Dir) h (after w4 [CRun chown]))) /\
  (forall e, Owner wf <> EmptyString -> run h (calls w3) chown = Some e ->
     (createFiles Dir l h w).1 = Some e /\
     calls (createFiles Dir l h w).2 = calls w3 ++ [CRun chown]).
Proof.
  intros Hl Hperm Hmkdir Hdata written w3 chown.
  unfold createFiles. rewrite Hl, range_cons.
  rewrite (createFile_write Dir wf h w w2 perm data Hperm Hmkdir Hdata).
  fold written. fold w3. fold chown. split.
  - intros e He. rewrite He. split.
    + intros Ho. rewrite Ho. reflexivity.
    + intros Ho Hrun. rewrite (nonempty_true _ Ho).
      cbn [logging calls]. now rewrite Hrun.
  - intros e Ho Hrun. rewrite (nonempty_true _ Ho).
    destruct written as [e'|]; cbn [logging calls]; now rewrite Hrun.
Qed.

Lemma createFiles_write_failure_example :
  let l := Examples.withWriteFiles [Examples.fileA; Examples.fileB] in
  let w2 := after (logging start_world [creating Examples.fileA]) [CMkdirAll "/etc" 457] in
  let w3 := after w2 [CWriteFile "/etc/a" "hello" 420] in
  let l' := Examples.withWriteFiles [Examples.fileB; Examples.fileA] in
  let chown := CRun (Command "chown" ["root"; "/etc/b"]) in
  (writeFile Examples.readOnlyA (calls w2) "/etc/a" "hello" 420
     = Some (HostError "read-only file system") /\
   run Examples.noChown [CMkdirAll "/etc" 457; CWriteFile "/etc/b" "world" 384]
     (Command "chown" ["root"; "/etc/b"]) = Some Examples.exit1) /\
  createFiles Examples.dirOf l Examples.readOnlyA start_world =
    range [Examples.fileB] (createFile Examples.dirOf) Examples.readOnlyA
      (logging w3 [errorWriting (HostError "read-only file system")]) /\
  calls (createFiles Examples.dirOf l Examples.readOnlyA start_world).2 =
    [CMkdirAll "/etc" 457; CWriteFile "/etc/a" "hello" 420;
     CMkdirAll "/etc" 457; CWriteFile "/etc/b" "world" 384; chown] /\
  (createFiles Examples.dirOf l' Examples.noChown start_world).1 = Some Examples.exit1 /\
  calls (createFiles Examples.dirOf l' Examples.noChown start_world).2 =
    [CMkdirAll "/etc" 457; CWriteFile "/etc/b" "world" 384; chown].
Proof.
  intros l w2 w3 l' chown. split; [split; reflexivity|].
  split; [|split; [reflexivity|]].
  - refine (proj1 (proj1 (createFiles_write_lenient_chown_fatal Examples.dirOf l
              Examples.fileA [Examples.fileB] Examples.readOnlyA start_world w2 420 "hello"
              eq_refl eq_refl eq_refl eq_refl) (HostError "read-only file system") eq_refl)
            eq_refl).
  - refine (proj2 (createFiles_write_lenient_chown_fatal Examples.dirOf l'
              Examples.fileB [Examples.fileA] Examples.noChown start_world
              (after (logging start_world [creating Examples.fileB]) [CMkdirAll "/etc" 457])
              384 "world" eq_refl eq_refl eq_refl eq_refl) Examples.exit1 _ eq_refl).
    done.
Defined.

(** C10. For a descriptor [wf] followed by [rest]:
    - if its permissions do not parse as a base-8 unsigned integer, the
      step returns the error about it at once, having made no call for
      [wf] and none for the remaining descriptors;
    - if its directory cannot be made, the step returns the error at
      once after that call;
    - if it has no inline content and the download of its content URL
      fails with [e], the step returns [e] at once: the download is its
      last call, nothing is written and no remaining descriptor is
      processed. *)
Theorem createFiles_permissions_download_fatal (Dir : string -> string) (l : Lift)
    (wf : WriteFile) (rest : list WriteFile) (h : Host) (w : World) :
  WriteFiles (Data l) = wf :: rest ->
  let mkdir := CMkdirAll (Dir (Path wf)) 457 in
  (forall n e, strconv.ParseUint (Permissions wf) 8 32 = (n, Some e) ->
     createFiles Dir l h w =
       (Some (Errorf "Error reading permissions: %s" [ArgE e]), w)) /\
  (forall perm e, strconv.ParseUint (Permissions wf) 8 32 = (perm, nil_error) ->
     mkdirAll h (calls w) (Dir (Path wf)) 457 = Some e ->
     createFiles Dir l h w =
       (Some (Errorf "Error creating %s: %s" [ArgS (Dir (Path wf)); ArgE e]),
        after (logging w [creating wf]) [mkdir])) /\
  (forall perm data e, strconv.ParseUint (Permissions wf) 8 32 = (perm, nil_error) ->
     mkdirAll h (calls w) (Dir (Path wf)) 457 = nil_error ->
     Content wf = EmptyString -> ContentURL wf <> EmptyString ->
     download h (calls w ++ [mkdir]) (ContentURL wf) = (data, Some e) ->
     createFiles Dir l h w =
       (Some e, after (logging w [creating wf]) [mkdir; CDownloadFile (ContentURL wf)])).
Proof.
  intros Hl mkdir. unfold createFiles. rewrite Hl, range_cons. unfold createFile.
  split; [|split].
  - intros n e Hperm. now rewrite Hperm.
  - intros perm e Hperm Hmkdir. rewrite Hperm. mred. now rewrite Hmkdir.
  - intros perm data e Hperm Hmkdir Hc Hu Hd. rewrite Hperm.
    unfold resolveContent. rewrite Hc, (nonempty_true _ Hu).
    mred. rewrite Hmkdir. simpl. fold mkdir. rewrite Hd. now trace_eq.
Qed.

Lemma createFiles_bad_permissions_example :
  let bad := Examples.withWriteFiles [Examples.fileBadPerm; Examples.fileA] in
  let remote := Examples.withWriteFiles [Examples.fileRemote; Examples.fileA] in
  let plain := Examples.withWriteFiles [Examples.fileA; Examples.fileB] in
  (strconv.ParseUint "rw-r--r--" 8 32 = (0, Some (NumError "ParseUint" "rw-r--r--" ErrSyntax)) /\
   mkdirAll Examples.noMkdir [] "/etc" 457 = Some (HostError "permission denied") /\
   download Examples.offline [CMkdirAll "/etc" 457] "http://example.com/d"
     = (EmptyString, Some (HostError "no route to host"))) /\
  createFiles Examples.dirOf bad Examples.okHost start_world =
    (Some (Errorf "Error reading permissions: %s"
             [ArgE (NumError "ParseUint" "rw-r--r--" ErrSyntax)]),
     start_world) /\
  createFiles Examples.dirOf plain Examples.noMkdir start_world =
    (Some (Errorf "Error creating %s: %s"
             [ArgS "/etc"; ArgE (HostError "permission denied")]),
     {| calls := [CMkdirAll "/etc" 457]; logs := [creating Examples.fileA] |}) /\
  createFiles Examples.dirOf remote Examples.offline start_world =
    (Some (HostError "no route to host"),
     {| calls := [CMkdirAll "/etc" 457; CDownloadFile "http://example.com/d"];
        logs := [creating Examples.fileRemote] |}).
Proof.
  intros bad remote plain. split; [repeat split; reflexivity|]. split; [|split].
  - exact (proj1 (createFiles_permissions_download_fatal Examples.dirOf bad
             Examples.fileBadPerm [Examples.fileA] Examples.okHost start_world eq_refl)
             0 (NumError "ParseUint" "rw-r--r--" ErrSyntax) eq_refl).
  - exact (proj1 (proj2 (createFiles_permissions_download_fatal Examples.dirOf plain
             Examples.fileA [Examples.fileB] Examples.noMkdir start_world eq_refl))
             420 (HostError "permission denied") eq_refl eq_refl).
  - refine (proj2 (proj2 (createFiles_permissions_download_fatal Examples.dirOf remote
             Examples.fileRemote [Examples.fileA] Examples.offline start_world eq_refl))
             420 EmptyString (HostError "no route to host") eq_refl eq_refl eq_refl _ eq_refl).
    done.
Defined.

(** ** The directive patcher *)

Section PatcherFacts.

Import Patcher.

Lemma oneLine_nil : oneLine EmptyString = true.
Proof. reflexivity. Qed.

Lemma oneLine_cons (c : ascii) (s : string) :
  oneLine (String c s) = negb (Ascii.eqb strings.LF c) && oneLine s.
Proof.
  unfold oneLine, strings.nl. rewrite Contains_cons, HasPrefix_char.
  now rewrite negb_orb.
Qed.

Lemma lines_cons (c : ascii) (rest : string) :
  lines (String c rest) =
  if Ascii.eqb c strings.LF then EmptyString :: lines rest
  else match lines rest with
       | [] => [String c EmptyString]
       | l :: ls => String c l :: ls
       end.
Proof. reflexivity. Qed.

(** Reading back a line that was written, followed by more text. *)
Lemma lines_append (l rest : string) :
  oneLine l = true -> lines (l +:+ strings.nl +:+ rest) = l :: lines rest.
Proof.
  induction l as [|c l IH]; intros Hl.
  - reflexivity.
  - rewrite oneLine_cons in Hl. apply andb_true_iff in Hl as [Hc Hl].
    apply negb_true_iff in Hc. rewrite append_cons, lines_cons.
    rewrite Ascii.eqb_sym, Hc. now rewrite IH.
Qed.

Lemma lines_unlines (ls : list string) :
  Forall (fun l => oneLine l = true) ls -> lines (unlines ls) = ls.
Proof.
  induction 1 as [|l ls Hl _ IH]; [reflexivity|].
  cbn [unlines]. now rewrite lines_append, IH.
Qed.

Lemma lines_oneLine (content : string) :
  Forall (fun l => oneLine l = true) (lines content).
Proof.
  induction content as [|c s IH]; [constructor|].
  rewrite lines_cons. destruct (Ascii.eqb c strings.LF) eqn:Ec.
  - constructor; [reflexivity|exact IH].
  - rewrite Ascii.eqb_sym in Ec.
    destruct (lines s) as [|l ls].
    + constructor; [|constructor]. now rewrite oneLine_cons, Ec.
    + inversion IH; subst. constructor; [|assumption].
      rewrite oneLine_cons, Ec. assumption.
Qed.

(** With a delimiter of one character, a key without that character
    is found again as the directive of its patched line. *)
Lemma directive_patched_line (c : ascii) (k v : string) :
  strings.Contains k (String c "") = false ->
  directive (String c "") (k +:+ String c "" +:+ v) = Some k.
Proof.
  intros Hk. unfold directive.
  assert (Hcut : strings.Cut (k +:+ String c "" +:+ v) (String c "") = Some (k, v)).
  { induction k as [|x k IH].
    - rewrite append_nil, append_cons, append_nil, Cut_cons, HasPrefix_char.
      now rewrite Ascii.eqb_refl.
    - rewrite Contains_cons, HasPrefix_char in Hk.
      apply orb_false_iff in Hk as [Hx Hk].
      rewrite append_cons, Cut_cons, HasPrefix_char, Hx. now rewrite IH. }
  rewrite Hcut. now destruct k.
Qed.

Context (delimiter : string) (desired : gmap string string).

Lemma scan_cons (applied : gset string) (line : string) (rest : list string) :
  scan delimiter desired applied (line :: rest) =
  match directive delimiter line with
  | Some d =>
      match desired !! d with
      | Some v =>
          if decide (d ∈ applied)
          then let (out, applied') := scan delimiter desired applied rest in
               (line :: out, applied')
          else let (out, applied') :=
                 scan delimiter desired ({[d]} ∪ applied) rest in
               ((d +:+ delimiter +:+ v) :: out, applied')
      | None => let (out, applied') := scan delimiter desired applied rest in
                (line :: out, applied')
      end
  | None => let (out, applied') := scan delimiter desired applied rest in
            (line :: out, applied')
  end.
Proof. reflexivity. Qed.

Lemma scan_app (applied : gset string) (l1 l2 : list string) :
  scan delimiter desired applied (l1 ++ l2) =
  let (o1, a1) := scan delimiter desired applied l1 in
  let (o2, a2) := scan delimiter desired a1 l2 in
  (o1 ++ o2, a2).
Proof.
  revert applied. induction l1 as [|line l1 IH]; intros applied.
  - cbn [app scan]. now destruct (scan delimiter desired applied l2).
  - rewrite <- app_comm_cons, !scan_cons.
    destruct (directive delimiter line) as [d|];
      [destruct (desired !! d) as [v|]; [destruct (decide (d ∈ applied))|]|];
      rewrite IH;
      match goal with |- context [scan delimiter desired ?a l1] =>
        destruct (scan delimiter desired a l1) as [o1 a1] end;
      now destruct (scan delimiter desired a1 l2).
Qed.

Hypothesis key_found : forall k v,
  desired !! k = Some v -> directive delimiter (k +:+ delimiter +:+ v) = Some k.

(** The scan leaves its own output unchanged, and marks the same
    keys. *)
Lemma scan_fixed (ls : list string) (applied : gset string) :
  let (out, applied') := scan delimiter desired applied ls in
  scan delimiter desired applied out = (out, applied').
Proof.
  revert applied. induction ls as [|line ls IH]; intros applied; [reflexivity|].
  rewrite scan_cons.
  destruct (directive delimiter line) as [d|] eqn:Ed;
    [destruct (desired !! d) as [v|] eqn:Ev;
     [destruct (decide (d ∈ applied)) as [Hin|Hout]|]|].
  - specialize (IH applied).
    destruct (scan delimiter desired applied ls) as [out a'].
    rewrite scan_cons, Ed, Ev, decide_True by done. now rewrite IH.
  - specialize (IH ({[d]} ∪ applied)).
    destruct (scan delimiter desired ({[d]} ∪ applied) ls) as [out a'].
    rewrite scan_cons, (key_found d v Ev), Ev, decide_False by done.
    now rewrite IH.
  - specialize (IH applied).
    destruct (scan delimiter desired applied ls) as [out a'].
    rewrite scan_cons, Ed, Ev. now rewrite IH.
  - specialize (IH applied).
    destruct (scan delimiter desired applied ls) as [out a'].
    rewrite scan_cons, Ed. now rewrite IH.
Qed.

(** The scan only adds to the set of applied keys. *)
Lemma scan_applied_mono (ls : list string) (applied : gset string) :
  applied ⊆ (scan delimiter desired applied ls).2.
Proof.
  revert applied. induction ls as [|line ls IH]; intros applied; [done|].
  rewrite scan_cons.
  destruct (directive delimiter line) as [d|];
    [destruct (desired !! d) as [v|]; [destruct (decide (d ∈ applied))|]|];
    match goal with |- context [scan delimiter desired ?a ls] =>
      specialize (IH a); destruct (scan delimiter desired a ls) as [out a'] end;
    cbn [snd] in *; set_solver.
Qed.

(** The appended lines are left unchanged by a second scan, which
    marks every key that was missing. *)
Lemma scan_missing (order : list (string * string)) (applied seen : gset string) :
  NoDup order.*1 ->
  (forall k v, (k, v) ∈ order -> desired !! k = Some v) ->
  (forall k, k ∈ order.*1 -> k ∈ seen -> k ∈ applied) ->
  exists seen',
    scan delimiter desired seen (missing delimiter applied order)
      = (missing delimiter applied order, seen') /\
    seen ⊆ seen' /\
    (forall k, k ∈ order.*1 -> k ∉ applied -> k ∈ seen').
Proof.
  revert seen. induction order as [|[k v] order IH]; intros seen Hnd Hval Hseen.
  - exists seen. split; [reflexivity|]. split; [done|]. intros k Hk. inversion Hk.
  - rewrite fmap_cons in Hnd. apply NoDup_cons in Hnd as [Hk Hnd].
    cbn [missing]. destruct (decide (k ∈ applied)) as [Hin|Hout].
    + destruct (IH seen Hnd) as (seen' & Hs & Hsub & Hall).
      { intros k' v' H'. apply Hval. now right. }
      { intros k' H1 H2. apply Hseen; [|done]. rewrite fmap_cons. now right. }
      exists seen'. split; [exact Hs|]. split; [exact Hsub|].
      intros k' H1 H2. rewrite fmap_cons in H1. cbn [fst] in H1.
      apply elem_of_cons in H1 as [->|H1]; [done|]. now apply Hall.
    + assert (Hv : desired !! k = Some v) by (apply Hval; now left).
      assert (Hns : k ∉ seen).
      { intros Hs. apply Hout, Hseen; [|done]. rewrite fmap_cons. now left. }
      destruct (IH ({[k]} ∪ seen) Hnd) as (seen' & Hs & Hsub & Hall).
      { intros k' v' H'. apply Hval. now right. }
      { intros k' H1 H2. apply elem_of_union in H2 as [H2|H2].
        - apply elem_of_singleton in H2. subst k'. done.
        - apply Hseen; [|done]. rewrite fmap_cons. now right. }
      exists seen'. split; [|split].
      * rewrite scan_cons, (key_found k v Hv), Hv, decide_False by done.
        now rewrite Hs.
      * set_solver.
      * intros k' H1 H2. rewrite fmap_cons in H1. cbn [fst] in H1.
        apply elem_of_cons in H1 as [->|H1]; [set_solver|]. now apply Hall.
Qed.

Lemma missing_nil (order : list (string * string)) (applied : gset string) :
  (forall k, k ∈ order.*1 -> k ∈ applied) -> missing delimiter applied order = [].
Proof.
  induction order as [|[k v] order IH]; intros Hall; [reflexivity|].
  cbn [missing]. rewrite decide_True.
  - apply IH. intros k' Hk'. apply Hall. rewrite fmap_cons. now right.
  - apply Hall. rewrite fmap_cons. now left.
Qed.

(** On lines, a second patch changes nothing, whatever the order in
    which each run visits the keys of the map. *)
Lemma patchLines_fixed (order1 order2 : list (string * string)) (ls : list string) :
  order1 ≡ₚ map_to_list desired ->
  order2 ≡ₚ map_to_list desired ->
  patchLines order2 delimiter desired (patchLines order1 delimiter desired ls)
    = patchLines order1 delimiter desired ls.
Proof.
  intros H1 H2. unfold patchLines.
  pose proof (scan_fixed ls ∅) as Hfix.
  pose proof (scan_applied_mono ls ∅) as Hmono.
  destruct (scan delimiter desired ∅ ls) as [out applied].
  cbn [snd] in Hmono.
  destruct (scan_missing order1 applied applied) as (seen & Hs & Hsub & Hall).
  { rewrite H1. apply NoDup_fst_map_to_list. }
  { intros k v Hkv. rewrite H1 in Hkv. now apply elem_of_map_to_list. }
  { done. }
  rewrite scan_app, Hfix, Hs.
  rewrite (missing_nil order2 seen); [now rewrite app_nil_r|].
  intros k Hk. destruct (decide (k ∈ applied)) as [Hin|Hout]; [now apply Hsub|].
  apply Hall; [|done]. now rewrite H1, <- H2.
Qed.

Hypothesis one_line : forall k v,
  desired !! k = Some v -> oneLine (k +:+ delimiter +:+ v) = true.

Lemma scan_oneLine (ls : list string) (applied : gset string) :
  Forall (fun l => oneLine l = true) ls ->
  Forall (fun l => oneLine l = true) (scan delimiter desired applied ls).1.
Proof.
  intros Hls. revert applied. induction Hls as [|line ls Hl _ IH]; intros applied.
  - constructor.
  - rewrite scan_cons.
    destruct (directive delimiter line) as [d|];
      [destruct (desired !! d) as [v|] eqn:Ev; [destruct (decide (d ∈ applied))|]|];
      match goal with |- context [scan delimiter desired ?a ls] =>
        specialize (IH a); destruct (scan delimiter desired a ls) as [out a'] end;
      cbn [fst] in *; constructor; eauto.
Qed.

Lemma missing_oneLine (order : list (string * string)) (applied : gset string) :
  (forall k v, (k, v) ∈ order -> desired !! k = Some v) ->
  Forall (fun l => oneLine l = true) (missing delimiter applied order).
Proof.
  induction order as [|[k v] order IH]; intros Hval; [constructor|].
  cbn [missing].
  assert (Hrest : Forall (fun l => oneLine l = true) (missing delimiter applied order)).
  { apply IH. intros k' v' H'. apply Hval. now right. }
  destruct (decide (k ∈ applied)); [exact Hrest|].
  constructor; [|exact Hrest]. apply one_line, Hval. now left.
Qed.

Lemma patchLines_oneLine (order : list (string * string)) (ls : list string) :
  order ≡ₚ map_to_list desired ->
  Forall (fun l => oneLine l = true) ls ->
  Forall (fun l => oneLine l = true) (patchLines order delimiter desired ls).
Proof.
  intros Ho Hls. unfold patchLines.
  pose proof (scan_oneLine ls ∅ Hls) as Hout.
  destruct (scan delimiter desired ∅ ls) as [out applied]. cbn [fst] in Hout.
  apply Forall_app. split; [exact Hout|].
  apply missing_oneLine. intros k v Hkv. rewrite Ho in Hkv.
  now apply elem_of_map_to_list.
Qed.

End PatcherFacts.

(** C7, as the patcher can do it.  Take a desired mapping in which each
    patched line [key<delimiter>value] is one line (no line feed in it)
    and has [key] as its directive (for a delimiter of one character:
    the key does not contain it).  Then for any content of the file,
    patching the output of a first patch again gives that output,
    byte for byte, whatever order each run visits the keys in. *)
Theorem Patch_idempotent (order1 order2 : list (string * string))
    (delimiter : string) (desired : gmap string string) (content : string) :
  order1 ≡ₚ map_to_list desired ->
  order2 ≡ₚ map_to_list desired ->
  (forall k v, desired !! k = Some v ->
     Patcher.directive delimiter (k +:+ delimiter +:+ v) = Some k) ->
  (forall k v, desired !! k = Some v ->
     Patcher.oneLine (k +:+ delimiter +:+ v) = true) ->
  Patcher.Patch order2 delimiter desired
    (Patcher.Patch order1 delimiter desired content)
  = Patcher.Patch order1 delimiter desired content.
Proof.
  intros H1 H2 Hkey Hline. unfold Patcher.Patch.
  rewrite lines_unlines.
  - now rewrite patchLines_fixed.
  - apply patchLines_oneLine; [done|done|apply lines_oneLine].
Qed.

Lemma Patch_idempotent_sshd_config :
  let desired : gmap string string := {[ "Port" := "22"; "PermitRootLogin" := "no" ]} in
  let order1 := [("Port", "22"); ("PermitRootLogin", "no")] in
  let order2 := [("PermitRootLogin", "no"); ("Port", "22")] in
  let content := "# sshd" +:+ strings.nl +:+ "Port 2222" +:+ strings.nl +:+ "Port 1" in
  (order1 ≡ₚ map_to_list desired /\ order2 ≡ₚ map_to_list desired /\
   (forall k v, desired !! k = Some v ->
      Patcher.directive " " (k +:+ " " +:+ v) = Some k) /\
   (forall k v, desired !! k = Some v ->
      Patcher.oneLine (k +:+ " " +:+ v) = true)) /\
  Patcher.Patch order1 " " desired content =
    "# sshd" +:+ strings.nl +:+ "Port 22" +:+ strings.nl +:+ "Port 1" +:+ strings.nl +:+
    "PermitRootLogin no" +:+ strings.nl /\
  Patcher.Patch order2 " " desired (Patcher.Patch order1 " " desired content)
    = Patcher.Patch order1 " " desired content.
Proof.
  intros desired order1 order2 content.
  assert (Hlist : map_to_list desired = order1) by (vm_compute; reflexivity).
  assert (H1 : order1 ≡ₚ map_to_list desired) by (rewrite Hlist; reflexivity).
  assert (H2 : order2 ≡ₚ map_to_list desired) by (rewrite Hlist; apply perm_swap).
  assert (Hkeys : forall k v, desired !! k = Some v ->
            (k, v) = ("Port", "22") \/ (k, v) = ("PermitRootLogin", "no")).
  { intros k v H. apply elem_of_map_to_list in H. rewrite Hlist in H.
    apply elem_of_cons in H as [H|H]; [now left|].
    apply elem_of_cons in H as [H|H]; [now right|]. inversion H. }
  assert (H3 : forall k v, desired !! k = Some v ->
            Patcher.directive " " (k +:+ " " +:+ v) = Some k).
  { intros k v H. destruct (Hkeys k v H) as [E|E]; inversion E; reflexivity. }
  assert (H4 : forall k v, desired !! k = Some v ->
            Patcher.oneLine (k +:+ " " +:+ v) = true).
  { intros k v H. destruct (Hkeys k v H) as [E|E]; inversion E; reflexivity. }
  split; [exact (conj H1 (conj H2 (conj H3 H4)))|].
  split; [vm_compute; reflexivity|].
  exact (Patch_idempotent order1 order2 " " desired content H1 H2 H3 H4).
Defined.

(** C7, as stated, fails: a key that contains the delimiter is never
    found as the directive of a line, so each run appends its line
    again.  With the delimiter " " and the mapping "Match User" -> "git"
    on an empty file, the second run gives two lines where the first
    gave one. *)
Lemma Patch_key_with_delimiter_not_fixed :
  let desired : gmap string string := {[ "Match User" := "git" ]} in
  let order := [("Match User", "git")] in
  let once := Patcher.Patch order " " desired EmptyString in
  order = map_to_list desired /\
  once = "Match User git" +:+ strings.nl /\
  Patcher.Patch order " " desired once =
    "Match User git" +:+ strings.nl +:+ "Match User git" +:+ strings.nl /\
  Patcher.Patch order " " desired once <> once.
Proof.
  vm_compute. repeat split. discriminate.
Qed.

(** * More properties of the steps *)

(** ** Loops that stop at the first error *)

Lemma range_app {A} (xs ys : list A) (body : A -> M goerror) (h : Host) (w : World) :
  range (xs ++ ys) body h w =
  match range xs body h w with
  | (Some e, w') => (Some e, w')
  | (None, w') => range ys body h w'
  end.
Proof.
  revert w. induction xs as [|x xs IH]; intros w.
  - reflexivity.
  - rewrite <- app_comm_cons, !range_cons.
    destruct (body x h w) as [[e|] w']; [reflexivity|apply IH].
Qed.

(** A loop whose body succeeds on every element, each time from the
    world that the elements before it left: [effect] is what one
    successful turn does to the world. *)
Lemma range_succeeds {A} (body : A -> M goerror) (effect : World -> A -> World)
    (xs : list A) (h : Host) (w : World) :
  (forall pre x post, xs = pre ++ x :: post ->
     body x h (foldl effect w pre) = (nil_error, effect (foldl effect w pre) x)) ->
  range xs body h w = (nil_error, foldl effect w xs).
Proof.
  induction xs as [|x xs IH] using rev_ind; intros Hbody; [reflexivity|].
  rewrite range_app, IH.
  - rewrite range_cons, (Hbody xs x []) by reflexivity.
    now rewrite foldl_app.
  - intros pre y post ->. apply (Hbody pre y (post ++ [x])).
    now rewrite <- app_assoc.
Qed.

(** A loop whose body fails on [x], after succeeding on the elements
    before it: the loop returns that error from the world the failing
    turn left, and the elements after [x] are not looked at. *)
Lemma range_fails {A} (body : A -> M goerror) (effect : World -> A -> World)
    (pre : list A) (x : A) (post : list A) (h : Host) (w w' : World)
    (e : error_value) :
  (forall pre1 y pre2, pre = pre1 ++ y :: pre2 ->
     body y h (foldl effect w pre1) = (nil_error, effect (foldl effect w pre1) y)) ->
  body x h (foldl effect w pre) = (Some e, w') ->
  range (pre ++ x :: post) body h w = (Some e, w').
Proof.
  intros Hpre Hx. rewrite range_app, (range_succeeds body effect pre h w Hpre).
  now rewrite range_cons, Hx.
Qed.

Lemma foldl_after {A} (c : A -> Call) (xs : list A) (w : World) :
  foldl (fun w x => after w [c x]) w xs = after w (map c xs).
Proof.
  revert w. induction xs as [|x xs IH]; intros w; simpl.
  - unfold after. rewrite app_nil_r. now destruct w.
  - rewrite IH. unfold after. simpl. now rewrite <- app_assoc.
Qed.

Lemma foldl_call_log {A} (c : A -> Call) (e : A -> Entry) (xs : list A) (w : World) :
  foldl (fun w x => {| calls := calls w ++ [c x]; logs := logs w ++ [e x] |}) w xs =
  {| calls := calls w ++ map c xs; logs := logs w ++ map e xs |}.
Proof.
  revert w. induction xs as [|x xs IH]; intros w; simpl.
  - rewrite !app_nil_r. now destruct w.
  - rewrite IH. simpl. now rewrite <- !app_assoc.
Qed.

(** ** Authorized keys *)

(** X1. The keys are appended in the order of the document, one line
    each, between the opening and the closing of the file. *)
Theorem addSSHKeys_appends_each_key (l : Lift) (h : Host) (w : World) :
  let keys := AuthorizedKeys (SSHDConfig (Data l)) in
  let path := "/root/.ssh/authorized_keys" in
  let line := fun key => CWriteString path (key +:+ strings.nl) in
  keys <> [] ->
  openFile h (calls w) path = nil_error ->
  (forall pre key post, keys = pre ++ key :: post ->
     writeString h (calls w ++ COpenOrCreate path :: map line pre) path
       (key +:+ strings.nl) = nil_error) ->
  addSSHKeys l h w =
    (nil_error, after w (COpenOrCreate path :: map line keys ++ [CClose path])).
Proof.
  intros keys path line Hne Hopen Hwrite. subst path. unfold addSSHKeys. fold keys.
  assert (Hlen : (0 <? length keys)%nat = true) by (now destruct keys).
  rewrite Hlen.
  unfold bind at 1. unfold openOrCreate at 1, call at 1. rewrite Hopen.
  unfold nil_error in *. cbv beta iota. unfold bind at 1.
  rewrite (range_succeeds _ (fun w key => after w [line key])).
  - rewrite foldl_after. mred. now trace_eq.
  - intros pre key post Hk. rewrite foldl_after.
    unfold WriteString, call, after. cbn [calls logs].
    rewrite <- app_assoc. cbn [app].
    now rewrite (Hwrite pre key post Hk).
Qed.

(** X2. A write that fails ends the loop: the keys after it are not
    written, the file is closed all the same, and the error of the
    write is the result. *)
Theorem addSSHKeys_stops_at_failed_write (l : Lift) (h : Host) (w : World)
    (pre : list string) (key : string) (post : list string) (e : error_value) :
  let path := "/root/.ssh/authorized_keys" in
  let line := fun key => CWriteString path (key +:+ strings.nl) in
  AuthorizedKeys (SSHDConfig (Data l)) = pre ++ key :: post ->
  openFile h (calls w) path = nil_error ->
  (forall pre1 k pre2, pre = pre1 ++ k :: pre2 ->
     writeString h (calls w ++ COpenOrCreate path :: map line pre1) path
       (k +:+ strings.nl) = nil_error) ->
  writeString h (calls w ++ COpenOrCreate path :: map line pre) path
    (key +:+ strings.nl) = Some e ->
  addSSHKeys l h w =
    (Some e, after w (COpenOrCreate path :: map line pre ++ [line key; CClose path])).
Proof.
  intros path line Hkeys Hopen Hpre Hkey. subst path. unfold addSSHKeys.
  rewrite Hkeys.
  assert (Hlen : (0 <? length (pre ++ key :: post))%nat = true) by (now destruct pre).
  rewrite Hlen.
  unfold bind at 1. unfold openOrCreate at 1, call at 1. rewrite Hopen.
  unfold nil_error in *. cbv beta iota. unfold bind at 1.
  rewrite (range_fails _ (fun w key => after w [line key]) pre key post h _
             (after w (COpenOrCreate "/root/.ssh/authorized_keys"
                         :: map line pre ++ [line key])) e).
  - mred. trace_eq. now rewrite <- app_assoc.
  - intros pre1 k pre2 Hk. rewrite foldl_after.
    unfold WriteString, call, after. cbn [calls logs].
    rewrite <- app_assoc. cbn [app].
    now rewrite (Hpre pre1 k pre2 Hk).
  - rewrite foldl_after. unfold WriteString, call, after. cbn [calls logs].
    rewrite <- !app_assoc. cbn [app]. now rewrite Hkey.
Qed.

(** ** Packages *)

(** X3. When [apk del p] fails (and the other commands succeed), the
    step returns that error after the uninstalls before [p] and the
    failed one: the packages after [p] are not uninstalled and nothing
    is installed. *)
Theorem setupAPK_failed_uninstall_installs_nothing (l : Lift) (h : Host) (w : World)
    (rfile : string) (pre : list string) (p : string) (post : list string)
    (e : error_value) :
  let pkgs := Packages_ (Data l) in
  let del := fun p => CRun (Command "apk" ["del"; p]) in
  Uninstall pkgs = pre ++ p :: post ->
  ~ In p pre ->
  generateFile h (calls w) repoFile (OfRepositories (Repositories pkgs))
    = (rfile, nil_error) ->
  (forall tr c, c <> Command "apk" ["del"; p] -> run h tr c = nil_error) ->
  (forall tr, run h tr (Command "apk" ["del"; p]) = Some e) ->
  (setupAPK l h w).1 = Some e /\
  calls (setupAPK l h w).2 =
    calls w ++
    [CGenerateFile repoFile (OfRepositories (Repositories pkgs));
     CRun (Command "mv" [rfile; "/etc/apk/repositories"])] ++
    (if Update pkgs then [CRun (Command "apk" ["update"])] else []) ++
    (if Upgrade pkgs then [CRun (Command "apk" ["upgrade"])] else []) ++
    map del pre ++ [del p].
Proof.
  intros pkgs del Hun Hnotin Hgen Hok Hfail. unfold setupAPK. fold pkgs.
  set (entry := fun p =>
         {| level := DebugLevel; fields := [("package", ArgS p)];
            message := "Executing apk del"; margs := [] |}).
  assert (Hmv : forall tr a b, run h tr (Command "mv" [a; b]) = nil_error)
    by (intros; now apply Hok).
  assert (Hup : forall tr a, run h tr (Command "apk" [a]) = nil_error)
    by (intros; now apply Hok).
  assert (Hdel : forall body w0,
    (forall q w1, body q h w1 =
       (run h (calls w1) (Command "apk" ["del"; q]),
        {| calls := calls w1 ++ [del q]; logs := logs w1 ++ [entry q] |})) ->
    range (Uninstall pkgs) body h w0 =
    (Some e, {| calls := calls w0 ++ map del pre ++ [del p];
                logs := logs w0 ++ map entry pre ++ [entry p] |})).
  { intros body w0 Hbody. rewrite Hun.
    rewrite (range_fails _ (fun w q => {| calls := calls w ++ [del q];
                                          logs := logs w ++ [entry q] |})
               pre p post h w0
               {| calls := calls w0 ++ map del pre ++ [del p];
                  logs := logs w0 ++ map entry pre ++ [entry p] |} e);
      [reflexivity| |].
    - intros pre1 q pre2 Hq. rewrite foldl_call_log, Hbody. simpl.
      rewrite Hok; [reflexivity|].
      intros Heq. inversion Heq; subst q. apply Hnotin. rewrite Hq.
      apply in_or_app. right. now left.
    - rewrite foldl_call_log, Hbody. simpl. rewrite Hfail.
      now rewrite <- !app_assoc. }
  mred. rewrite Hgen. simpl. rewrite Hmv. simpl.
  destruct (Update pkgs), (Upgrade pkgs); simpl; rewrite ?Hup; simpl;
    rewrite ?Hup; simpl; rewrite Hdel by reflexivity; simpl;
    (split; [reflexivity|now trace_eq]).
Qed.

(** ** The disk step *)

(** The scan of the process list finds docker exactly when some
    executable name, in lower case, contains "docker"; it makes no
    call. *)
Lemma detectDocker_result (ToLower : string -> string) (procs : list Process)
    (b : bool) (h : Host) (w : World) :
  (detectDocker ToLower procs b h w).1 =
    b || existsb (fun p => strings.Contains (ToLower (Executable p)) "docker") procs /\
  calls (detectDocker ToLower procs b h w).2 = calls w.
Proof.
  revert b w. induction procs as [|p procs IH]; intros b w.
  - simpl. now rewrite orb_false_r.
  - cbn [detectDocker existsb]. unfold bind at 1. unfold Debugf, log. cbv beta iota.
    destruct (strings.Contains (ToLower (Executable p)) "docker").
    + unfold bind at 1. unfold Debug, log. cbv beta iota.
      match goal with |- context [detectDocker ToLower procs true h ?w0] =>
        destruct (IH true w0) as [H1 H2] end.
      split; [rewrite H1; simpl; now rewrite orb_true_r|exact H2].
    + match goal with |- context [detectDocker ToLower procs b h ?w0] =>
        destruct (IH b w0) as [H1 H2] end.
      split; [now rewrite H1|exact H2].
Qed.

(** The shape of a run of the disk step that gets its process list:
    the calls up to setup-disk, and what follows from its result. *)
Lemma diskSetup_run (ToLower : string -> string) (silent : bool) (l : Lift)
    (h : Host) (w : World) (procs : list Process) :
  let disk := ScratchDisk (Data l) in
  let present :=
    existsb (fun p => strings.Contains (ToLower (Executable p)) "docker") procs in
  let listed :=
    calls w ++ [CSleep 3; CProcesses] ++
    (if present then [CService "docker" STOP; CSleep 2] else []) in
  let umounts :=
    map (fun mnt => CRun (Command "umount" [Mountpoint mnt]))
        (List.filter (fun mnt => strings.Contains (Mountpoint mnt) "/var")
           (getMounts h listed).1) in
  let ready := listed ++ CGetMounts :: umounts in
  let out := if silent then Unset else Inherited in
  let setup :=
    {| Name := "setup-disk"; Args := ["-q"; "-m"; "data"; disk];
       Env := Some (environ h ++ ["VARFS=xfs"; "ERASE_DISKS=" +:+ disk;
                                  "MKFS_OPTS_VAR=-f"; "DEFAULT_DISK=none"]);
       Stdin := Unset; Stdout := out; Stderr := out |} in
  let r := diskSetup ToLower silent l h w in
  disk <> EmptyString ->
  processes h (calls w ++ [CSleep 3]) = (procs, nil_error) ->
  match run h ready setup with
  | Some e => r.1 = Some e /\ calls r.2 = ready ++ [CRun setup]
  | None =>
      r.1 = nil_error /\
      exists swapon,
        (swapon = [] \/ swapon = [CRun (Command "swapon" ["-a"])]) /\
        calls r.2 =
          ready ++ [CRun setup] ++
          (if present then [CService "docker" START] else []) ++
          COutput (Command "cat" ["/proc/swap"]) :: swapon
  end.
Proof.
  intros disk present listed umounts ready out setup r Hdisk Hprocs.
  subst r. pattern (diskSetup ToLower silent l h w).
  match goal with |- ?P _ => set (Q := P) end.
  unfold diskSetup. fold disk.
  apply String.eqb_neq in Hdisk. rewrite Hdisk.
  unfold bind at 1. unfold Debug at 1, log at 1. cbv beta iota.
  unfold bind at 1. unfold Sleep at 1, call at 1. cbv beta iota. cbn [calls logs].
  unfold bind at 1. unfold Processes at 1, call at 1. cbv beta iota. cbn [calls logs].
  rewrite Hprocs. unfold nil_error at 1. cbv beta iota.
  unfold bind at 1. unfold WithField_Debug at 1, log at 1. cbv beta iota.
  cbn [calls logs].
  unfold bind at 1.
  match goal with |- context [detectDocker ToLower procs false h ?w0] =>
    destruct (detectDocker_result ToLower procs false h w0) as [Hb Hc];
    destruct (detectDocker ToLower procs false h w0) as [b wd]
  end.
  cbn [fst snd calls orb] in Hb, Hc. fold present in Hb. subst b.
  unfold bind at 1.
  assert (Hstop : exists ws,
    (if present
     then do! Info "Stopping Docker..." in do! doService "docker" STOP in Sleep 2
     else ret tt) h wd = (tt, ws) /\ calls ws = listed).
  { subst listed. destruct present; mred; eexists; (split; [reflexivity|]);
      simpl; rewrite Hc; now trace_eq. }
  destruct Hstop as (ws & -> & Hws).
  unfold bind at 1. unfold GetMounts at 1, call at 1. cbv beta iota.
  rewrite Hws.
  subst umounts. destruct (getMounts h listed) as [mnts merr]. cbn [fst] in *.
  unfold bind at 1.
  match goal with |- context [unmountVar mnts h ?w0] =>
    pose proof (unmountVar_calls mnts h w0) as Hu;
    destruct (unmountVar mnts h w0) as [[] wu]
  end.
  cbn [fst snd calls] in Hu.
  assert (Hready : calls wu = ready).
  { subst ready. rewrite Hu. now rewrite <- app_assoc. }
  clearbody ready. clear Hu.
  mred. rewrite Hready. fold out. fold setup.
  destruct (run h ready setup) as [e|]; simpl.
  { subst Q. cbv beta. now split. }
  destruct present; simpl;
    match goal with |- context [output h ?tr ?c] =>
      destruct (output h tr c) as [swaps [e|]] end; simpl;
    try (destruct (strings.Contains swaps disk); simpl);
    subst Q; cbv beta; (split; [reflexivity|]);
    solve [ exists []; split; [now left|now trace_eq]
          | exists [CRun (Command "swapon" ["-a"])]; split; [now right|now trace_eq] ].
Qed.

(** X4. The disk step fails only where the process list or setup-disk
    fails: when it returns an error, that error is the answer to its
    last call, which is [ps.Processes] or the run of setup-disk.
    Errors of stopping or starting docker, of reading the mount table,
    of umount, of reading the swap list and of swapon never fail it. *)
Theorem diskSetup_fails_only_at_processes_or_setup_disk (ToLower : string -> string)
    (silent : bool) (l : Lift) (h : Host) (w : World) (e : error_value) :
  let r := diskSetup ToLower silent l h w in
  r.1 = Some e ->
  ((processes h (calls w ++ [CSleep 3])).2 = Some e /\
   calls r.2 = calls w ++ [CSleep 3; CProcesses]) \/
  (exists tr cmd, Name cmd = "setup-disk" /\ run h tr cmd = Some e /\
                  calls r.2 = tr ++ [CRun cmd]).
Proof.
  intros r Hr.
  destruct (String.eqb (ScratchDisk (Data l)) "") eqn:Hdisk.
  { subst r. unfold diskSetup in Hr. rewrite Hdisk in Hr. discriminate Hr. }
  apply String.eqb_neq in Hdisk.
  destruct (processes h (calls w ++ [CSleep 3])) as [procs [e'|]] eqn:Hprocs.
  - left. subst r. unfold diskSetup in *.
    apply String.eqb_neq in Hdisk. rewrite Hdisk in *.
    revert Hr. mred. rewrite Hprocs. simpl. intros Hr.
    split; [exact Hr|now trace_eq].
  - right. pose proof (diskSetup_run ToLower silent l h w procs Hdisk Hprocs) as Hrun.
    cbv zeta in Hrun. fold r in Hrun.
    match type of Hrun with match run h ?tr ?c with _ => _ end =>
      destruct (run h tr c) as [e'|] eqn:Erun; [exists tr, c|] end.
    + destruct Hrun as [H1 H2]. rewrite Hr in H1. inversion H1; subst e'.
      split; [reflexivity|]. split; [exact Erun|exact H2].
    + destruct Hrun as [H1 _]. rewrite Hr in H1. discriminate H1.
Qed.

(** X5. When the process list shows docker, the step asks the docker
    service to stop and waits before it reads the mount table and does
    anything to the disk, whatever the stop request answers. *)
Theorem diskSetup_stops_docker_first (ToLower : string -> string) (silent : bool)
    (l : Lift) (h : Host) (w : World) (procs : list Process) :
  ScratchDisk (Data l) <> EmptyString ->
  processes h (calls w ++ [CSleep 3]) = (procs, nil_error) ->
  existsb (fun p => strings.Contains (ToLower (Executable p)) "docker") procs = true ->
  exists more,
    calls (diskSetup ToLower silent l h w).2 =
      calls w ++ [CSleep 3; CProcesses; CService "docker" STOP; CSleep 2; CGetMounts]
      ++ more.
Proof.
  intros Hdisk Hprocs Hpresent.
  pose proof (diskSetup_run ToLower silent l h w procs Hdisk Hprocs) as Hrun.
  cbv zeta in Hrun. rewrite Hpresent in Hrun.
  match type of Hrun with match run h ?tr ?c with _ => _ end =>
    destruct (run h tr c) as [e'|] end.
  - destruct Hrun as [_ ->]. eexists. rewrite <- !app_assoc. simpl. reflexivity.
  - destruct Hrun as [_ (swapon & _ & ->)]. eexists.
    rewrite <- !app_assoc. simpl. reflexivity.
Qed.

(** X6. Between reading the mount table and running setup-disk, the
    step runs umount for exactly the mount points that contain "/var",
    in the order of the table, and goes on whatever umount answers. *)
Theorem diskSetup_unmounts_var_mounts (ToLower : string -> string) (silent : bool)
    (l : Lift) (h : Host) (w : World) (procs : list Process) :
  ScratchDisk (Data l) <> EmptyString ->
  processes h (calls w ++ [CSleep 3]) = (procs, nil_error) ->
  exists before setup rest,
    Name setup = "setup-disk" /\
    calls (diskSetup ToLower silent l h w).2 =
      before ++ CGetMounts ::
      map (fun mnt => CRun (Command "umount" [Mountpoint mnt]))
          (List.filter (fun mnt => strings.Contains (Mountpoint mnt) "/var")
             (getMounts h before).1)
      ++ CRun setup :: rest.
Proof.
  intros Hdisk Hprocs.
  pose proof (diskSetup_run ToLower silent l h w procs Hdisk Hprocs) as Hrun.
  cbv zeta in Hrun.
  match type of Hrun with match run h (?before ++ _) ?c with _ => _ end =>
    exists before, c; destruct (run h _ c) as [e'|] end.
  - destruct Hrun as [_ ->]. exists []. split; [reflexivity|].
    now rewrite <- !app_assoc.
  - destruct Hrun as [_ (swapon & _ & ->)]. eexists. split; [reflexivity|].
    rewrite <- !app_assoc. simpl. reflexivity.
Qed.

(** ** What a loop can call *)

(** If every turn of the body only makes calls with the property [P],
    so does the loop. *)
Lemma range_calls_Forall {A} (P : Call -> Prop) (body : A -> M goerror)
    (xs : list A) (h : Host) :
  (forall x w, In x xs ->
     exists new, calls (body x h w).2 = calls w ++ new /\ Forall P new) ->
  forall w, exists new, calls (range xs body h w).2 = calls w ++ new /\ Forall P new.
Proof.
  induction xs as [|x xs IH]; intros Hbody w.
  - exists []. split; [simpl; now rewrite app_nil_r|constructor].
  - rewrite range_cons.
    destruct (Hbody x w (or_introl eq_refl)) as (new1 & H1 & HP1).
    destruct (body x h w) as [[e|] w1]; cbn [snd] in H1.
    + now exists new1.
    + destruct (IH (fun y w' Hy => Hbody y w' (or_intror Hy)) w1) as (new2 & H2 & HP2).
      exists (new1 ++ new2). split.
      * now rewrite H2, H1, <- app_assoc.
      * now apply Forall_app.
Qed.

(** ** File materialization, continued *)

(** X7. Descriptors with inline content, no owner and permissions that
    parse cannot make the step fail once their directories can be
    made: the step makes the directory and writes the file of each
    descriptor in order, with the parsed mode, and returns no error
    whatever the writes answer. *)
Theorem createFiles_inline_files_never_fail (Dir : string -> string) (l : Lift)
    (h : Host) (w : World) :
  let wfs := WriteFiles (Data l) in
  (forall wf, In wf wfs ->
     Content wf <> EmptyString /\ Owner wf = EmptyString /\
     (strconv.ParseUint (Permissions wf) 8 32).2 = nil_error) ->
  (forall tr path, mkdirAll h tr path 457 = nil_error) ->
  (createFiles Dir l h w).1 = nil_error /\
  calls (createFiles Dir l h w).2 =
    calls w ++
    flat_map (fun wf => [CMkdirAll (Dir (Path wf)) 457;
                         CWriteFile (Path wf) (Content wf)
                           (strconv.ParseUint (Permissions wf) 8 32).1]) wfs.
Proof.
  intros wfs Hwfs Hmkdir. unfold createFiles. fold wfs. clearbody wfs.
  revert w. induction wfs as [|wf wfs IH]; intros w.
  - split; [reflexivity|]. simpl. now rewrite app_nil_r.
  - destruct (Hwfs wf (or_introl eq_refl)) as (Hc & Ho & Hp).
    destruct (strconv.ParseUint (Permissions wf) 8 32) as [perm perr] eqn:Eperm.
    cbn [fst snd] in *. subst perr.
    rewrite range_cons.
    rewrite (createFile_write Dir wf h w
               (after (logging w [creating wf]) [CMkdirAll (Dir (Path wf)) 457])
               perm (Content wf) Eperm (Hmkdir _ _)).
    2:{ unfold resolveContent. now rewrite (nonempty_true _ Hc). }
    rewrite Ho. cbn [nonempty String.eqb negb]. unfold nil_error. cbv iota beta.
    match goal with |- context [range wfs _ h ?w1] =>
      destruct (IH (fun wf' H' => Hwfs wf' (or_intror H')) w1) as [H1 H2] end.
    split; [exact H1|]. rewrite H2. cbn [flat_map].
    destruct (writeFile h _ (Path wf) (Content wf) perm); simpl;
      rewrite Eperm; simpl; now rewrite <- !app_assoc.
Qed.

(** One descriptor with inline content never calls the downloader. *)
Lemma createFile_inline_calls (Dir : string -> string) (wf : WriteFile)
    (h : Host) (w : World) :
  Content wf <> EmptyString ->
  exists new, calls (createFile Dir wf h w).2 = calls w ++ new /\
              Forall (fun c => forall url, c <> CDownloadFile url) new.
Proof.
  intros Hc. unfold createFile, resolveContent. rewrite (nonempty_true _ Hc).
  destruct (strconv.ParseUint (Permissions wf) 8 32) as [perm [e|]].
  { exists []. split; [simpl; now rewrite app_nil_r|constructor]. }
  mred. destruct (mkdirAll h (calls w) (Dir (Path wf)) 457) as [e|]; simpl.
  { eexists. split; [reflexivity|]. repeat constructor; discriminate. }
  match goal with |- context [writeFile h ?tr ?p ?d ?m] =>
    destruct (writeFile h tr p d m) as [e|] end; simpl;
    destruct (nonempty (Owner wf)); simpl;
    try match goal with |- context [run h ?tr ?c] =>
      destruct (run h tr c) as [e'|] end; simpl;
    eexists; (split; [rewrite <- ?app_assoc; simpl; reflexivity|]);
    repeat constructor; discriminate.
Qed.

(** X8. The content URL is only a fallback: when every descriptor has
    inline content, the step never calls the downloader, on any host
    and however the run ends. *)
Theorem createFiles_inline_content_never_downloads (Dir : string -> string)
    (l : Lift) (h : Host) (w : World) :
  (forall wf, In wf (WriteFiles (Data l)) -> Content wf <> EmptyString) ->
  exists new,
    calls (createFiles Dir l h w).2 = calls w ++ new /\
    forall url, ~ In (CDownloadFile url) new.
Proof.
  intros Hc. unfold createFiles.
  destruct (range_calls_Forall (fun c => forall url, c <> CDownloadFile url)
              (createFile Dir) (WriteFiles (Data l)) h
              (fun wf w' Hin => createFile_inline_calls Dir wf h w' (Hc wf Hin)) w)
    as (new & Hnew & HP).
  exists new. split; [exact Hnew|].
  intros url Hin. rewrite Forall_forall in HP.
  apply list_elem_of_In in Hin. now apply (HP _ Hin url).
Qed.

(** ** The SSHD step, continued *)

(** The calls of [addSSHKeys] are file operations. *)
Lemma addSSHKeys_calls (l : Lift) (h : Host) (w : World) :
  exists new, calls (addSSHKeys l h w).2 = calls w ++ new /\
              Forall (fun c => forall name a, c <> CService name a) new.
Proof.
  unfold addSSHKeys.
  destruct (0 <? length (AuthorizedKeys (SSHDConfig (Data l))))%nat.
  2:{ exists []. split; [simpl; now rewrite app_nil_r|constructor]. }
  unfold bind at 1. unfold openOrCreate at 1, call at 1.
  destruct (openFile h (calls w) "/root/.ssh/authorized_keys") as [e|].
  { eexists. split; [reflexivity|]. repeat constructor; discriminate. }
  unfold bind at 1.
  match goal with |- context [range ?xs ?body h ?w1] =>
    destruct (range_calls_Forall (fun c => forall name a, c <> CService name a)
                body xs h) with (w := w1) as (new & Hnew & HP);
    [|destruct (range xs body h w1) as [err wr]]
  end.
  { intros key w' _. eexists. split; [reflexivity|]. repeat constructor; discriminate. }
  cbn [snd calls] in Hnew. mred. rewrite Hnew.
  exists (COpenOrCreate "/root/.ssh/authorized_keys" :: new ++
          [CClose "/root/.ssh/authorized_keys"]).
  split; [now rewrite <- !app_assoc|].
  constructor; [discriminate|]. apply Forall_app. split; [exact HP|].
  repeat constructor; discriminate.
Qed.

Lemma sshdSetup_patch_fails (getSSHDKVMap : Lift -> gmap string string)
    (l : Lift) (h : Host) (w : World) (e : error_value) :
  parseConfig h (calls w) "/etc/ssh/sshd_config" " " (getSSHDKVMap l) = Some e ->
  sshdSetup getSSHDKVMap l h w =
    (Some e, after w [CParseConfigFile "/etc/ssh/sshd_config" " " (getSSHDKVMap l)]).
Proof.
  intros Hp. unfold sshdSetup.
  unfold bind at 1. unfold parseConfigFile at 1, call at 1. now rewrite Hp.
Qed.

Lemma sshdSetup_keys_fail (getSSHDKVMap : Lift -> gmap string string)
    (l : Lift) (h : Host) (w wk : World) (e : error_value) :
  parseConfig h (calls w) "/etc/ssh/sshd_config" " " (getSSHDKVMap l) = nil_error ->
  addSSHKeys l h
    (after w [CParseConfigFile "/etc/ssh/sshd_config" " " (getSSHDKVMap l)])
    = (Some e, wk) ->
  sshdSetup getSSHDKVMap l h w = (Some e, wk).
Proof.
  intros Hp Hk. unfold after in Hk. unfold sshdSetup.
  unfold bind at 1. unfold parseConfigFile at 1, call at 1. rewrite Hp.
  unfold nil_error in *. cbv beta iota. unfold bind at 1. now rewrite Hk.
Qed.

(** X9. Sshd is asked to restart only after the configuration was
    patched and the keys were added: when patching fails, or adding the
    keys fails, the step makes no service request at all. *)
Theorem sshdSetup_no_restart_after_failure (getSSHDKVMap : Lift -> gmap string string)
    (l : Lift) (h : Host) (w : World) :
  let patch := CParseConfigFile "/etc/ssh/sshd_config" " " (getSSHDKVMap l) in
  parseConfig h (calls w) "/etc/ssh/sshd_config" " " (getSSHDKVMap l) <> nil_error \/
  (addSSHKeys l h (after w [patch])).1 <> nil_error ->
  (sshdSetup getSSHDKVMap l h w).1 <> nil_error /\
  exists new,
    calls (sshdSetup getSSHDKVMap l h w).2 = calls w ++ new /\
    forall name a, ~ In (CService name a) new.
Proof.
  intros patch Hfail.
  destruct (parseConfig h (calls w) "/etc/ssh/sshd_config" " " (getSSHDKVMap l))
    as [e|] eqn:Hp.
  { rewrite (sshdSetup_patch_fails _ l h w e Hp).
    split; [discriminate|]. exists [patch]. split; [reflexivity|].
    intros name a [H|[]]. discriminate H. }
  destruct Hfail as [Hfail|Hfail]; [done|].
  destruct (addSSHKeys_calls l h (after w [patch])) as (new & Hnew & HP).
  destruct (addSSHKeys l h (after w [patch])) as [[e|] wk] eqn:Hk; [|done].
  rewrite (sshdSetup_keys_fail _ l h w wk e Hp Hk).
  cbn [fst snd] in *. split; [discriminate|].
  exists (patch :: new). split; [rewrite Hnew; unfold after; simpl; now trace_eq|].
  intros name a [H|H]; [discriminate H|].
  rewrite Forall_forall in HP. apply list_elem_of_In in H. now apply (HP _ H name a).
Qed.

(** ** Permissions *)

Lemma octalValueFrom_ge (s : string) (acc : N) : acc <= octalValueFrom acc s.
Proof.
  revert acc. induction s as [|c s IH]; intros acc; simpl; [lia|].
  specialize (IH (acc * 8 + (N_of_ascii c - 48))). lia.
Qed.

Lemma digit_octal (c : ascii) (d : N) :
  strconv.digit c = Some d -> d < 8 ->
  isOctalDigit c = true /\ d = N_of_ascii c - 48.
Proof.
  unfold strconv.digit, isOctalDigit.
  destruct (48 <=? N_of_ascii c) eqn:E1; simpl.
  - destruct (N_of_ascii c <=? 57) eqn:E2.
    + intros [= <-] Hd. apply N.leb_le in E1, E2. split; [|reflexivity].
      apply N.leb_le. lia.
    + destruct ((97 <=? strconv.lower (N_of_ascii c)) &&
                (strconv.lower (N_of_ascii c) <=? 122)) eqn:E3; [|discriminate].
      intros [= <-] Hd. apply andb_true_iff in E3 as [E3 _].
      apply N.leb_le in E3. lia.
  - destruct ((97 <=? strconv.lower (N_of_ascii c)) &&
              (strconv.lower (N_of_ascii c) <=? 122)) eqn:E3; [|discriminate].
    intros [= <-] Hd. apply andb_true_iff in E3 as [E3 _].
    apply N.leb_le in E3. lia.
Qed.

Lemma digit_of_octal (c : ascii) :
  isOctalDigit c = true ->
  strconv.digit c = Some (N_of_ascii c - 48) /\ N_of_ascii c - 48 < 8.
Proof.
  unfold strconv.digit, isOctalDigit. intros H.
  apply andb_true_iff in H as [H1 H2]. rewrite H1.
  apply N.leb_le in H1, H2.
  assert (H3 : (N_of_ascii c <=? 57) = true) by (apply N.leb_le; lia).
  rewrite H3. simpl. split; [reflexivity|lia].
Qed.

(** The digit loop of [ParseUint(s, 8, 32)] from an accumulator below
    2^32: it succeeds exactly on octal digits whose value stays below
    2^32. *)
Lemma ParseUint_loop_octal (s0 s : string) (n : N) :
  n < 4294967296 ->
  let r := strconv.ParseUint_loop s0 8 2305843009213693952 4294967295 s n in
  (allOctal s = true -> octalValueFrom n s < 4294967296 ->
   r = (octalValueFrom n s, nil_error)) /\
  (r.2 = nil_error -> allOctal s = true /\ octalValueFrom n s < 4294967296).
Proof.
  revert n. induction s as [|c s IH]; intros n Hn; cbv zeta.
  - simpl. split; [reflexivity|]. intros _. split; [reflexivity|exact Hn].
  - cbn [strconv.ParseUint_loop allOctal octalValueFrom].
    assert (Hcut : (2305843009213693952 <=? n) = false) by (apply N.leb_gt; lia).
    assert (Hmul : (n * 8) mod 2 ^ 64 = n * 8).
    { apply N.mod_small. change (2 ^ 64) with 18446744073709551616. lia. }
    split.
    + intros Hall Hval. apply andb_true_iff in Hall as [Hc Hall].
      destruct (digit_of_octal c Hc) as [Hd Hlt]. rewrite Hd.
      set (d := N_of_ascii c - 48) in *.
      pose proof (octalValueFrom_ge s (n * 8 + d)) as Hge.
      assert (Hbase : (8 <=? d) = false) by (apply N.leb_gt; lia).
      rewrite Hbase, Hcut, Hmul.
      assert (Hadd : (n * 8 + d) mod 2 ^ 64 = n * 8 + d).
      { apply N.mod_small. change (2 ^ 64) with 18446744073709551616. lia. }
      rewrite Hadd.
      assert (H1 : (n * 8 + d <? n * 8) = false) by (apply N.ltb_ge; lia).
      assert (H2 : (4294967295 <? n * 8 + d) = false) by (apply N.ltb_ge; lia).
      rewrite H1, H2. simpl.
      apply (IH (n * 8 + d)); [lia|exact Hall|exact Hval].
    + destruct (strconv.digit c) as [d|] eqn:Hd; [|discriminate].
      destruct (8 <=? d) eqn:Hbase; [discriminate|].
      apply N.leb_gt in Hbase.
      destruct (digit_octal c d Hd Hbase) as [Hc ->].
      set (d := N_of_ascii c - 48) in *.
      rewrite Hcut, Hmul.
      assert (Hadd : (n * 8 + d) mod 2 ^ 64 = n * 8 + d).
      { apply N.mod_small. change (2 ^ 64) with 18446744073709551616. lia. }
      rewrite Hadd.
      destruct ((n * 8 + d <? n * 8) || (4294967295 <? n * 8 + d)) eqn:Hov;
        [discriminate|].
      apply orb_false_iff in Hov as [_ Hmax]. apply N.ltb_ge in Hmax.
      intros Hr. rewrite Hc. simpl.
      apply (IH (n * 8 + d)); [lia|exact Hr].
Qed.

(** X10. The permissions that the step accepts are exactly the non-empty
    texts of octal digits whose value is below 2^32 (leading zeros
    allowed), and the mode it then uses is that value. *)
Theorem ParseUint_accepts_octal (s : string) :
  ((strconv.ParseUint s 8 32).2 = nil_error <->
   s <> EmptyString /\ allOctal s = true /\ octalValue s < 2 ^ 32) /\
  ((strconv.ParseUint s 8 32).2 = nil_error ->
   (strconv.ParseUint s 8 32).1 = octalValue s).
Proof.
  change (2 ^ 32) with 4294967296.
  destruct s as [|c s].
  { split; [split; [discriminate|intros [H _]; done]|discriminate]. }
  unfold strconv.ParseUint, octalValue.
  change (strconv.maxUint64 / 8 + 1) with 2305843009213693952.
  change (2 ^ 32 - 1) with 4294967295.
  destruct (ParseUint_loop_octal (String c s) (String c s) 0 eq_refl) as [Hok Hback].
  split; [split|].
  - intros Hr. destruct (Hback Hr) as [H1 H2]. now repeat split.
  - intros (_ & H1 & H2). now rewrite (Hok H1 H2).
  - intros Hr. destruct (Hback Hr) as [H1 H2]. now rewrite (Hok H1 H2).
Qed.

(** ** The hostname step, continued *)

(** A run of the hostname step, call by call. *)
Lemma setHostname_run (l : Lift) (h : Host) (w : World) :
  let fqdn := HostName (Network_ (Data l)) in
  let host := hd EmptyString (strings.Split fqdn ".") in
  let line := "127.0.0.1" +:+ strings.tab +:+ fqdn +:+ " " +:+ host +:+ strings.nl in
  let c1 := CRun (Command "hostname" [host]) in
  let c2 := CRun (Command "setup-hostname" ["-n"; host]) in
  let c3 := COpenOrCreate "/etc/hosts" in
  fqdn <> EmptyString ->
  setHostname l h w =
    match run h (calls w) (Command "hostname" [host]) with
    | Some e => (Some e, after w [c1])
    | None =>
        match run h (calls w ++ [c1]) (Command "setup-hostname" ["-n"; host]) with
        | Some e => (Some e, after w [c1; c2])
        | None =>
            match openFile h (calls w ++ [c1; c2]) "/etc/hosts" with
            | Some e => (Some e, after w [c1; c2; c3])
            | None =>
                (writeString h (calls w ++ [c1; c2; c3]) "/etc/hosts" line,
                 after w [c1; c2; c3; CWriteString "/etc/hosts" line;
                          CClose "/etc/hosts"])
            end
        end
    end.
Proof.
  intros fqdn host line c1 c2 c3 Hne. unfold setHostname. fold fqdn.
  rewrite (nonempty_true _ Hne). fold host. mred.
  destruct (run h (calls w) (Command "hostname" [host])); simpl; [reflexivity|].
  destruct (run h _ (Command "setup-hostname" ["-n"; host])); simpl;
    [now trace_eq|].
  rewrite <- app_assoc. simpl.
  destruct (openFile h _ "/etc/hosts"); simpl; now trace_eq.
Qed.

(** X11. The hostname step reports success only after it has done all of
    its work: with a host name in the document, a result without error
    means that both commands ran, the line was written to /etc/hosts
    and the file was closed. *)
Theorem setHostname_success_means_written (l : Lift) (h : Host) (w : World) :
  let fqdn := HostName (Network_ (Data l)) in
  let host := hd EmptyString (strings.Split fqdn ".") in
  let line := "127.0.0.1" +:+ strings.tab +:+ fqdn +:+ " " +:+ host +:+ strings.nl in
  fqdn <> EmptyString ->
  (setHostname l h w).1 = nil_error ->
  calls (setHostname l h w).2 =
    calls w ++
    [CRun (Command "hostname" [host]);
     CRun (Command "setup-hostname" ["-n"; host]);
     COpenOrCreate "/etc/hosts";
     CWriteString "/etc/hosts" line;
     CClose "/etc/hosts"].
Proof.
  intros fqdn host line Hne. rewrite (setHostname_run l h w Hne).
  fold fqdn host line.
  destruct (run h (calls w) _); [discriminate|].
  destruct (run h _ (Command "setup-hostname" _)); [discriminate|].
  destruct (openFile h _ _); [discriminate|]. reflexivity.
Qed.

(** X12. A host name that starts with a dot has the empty short name:
    the step then runs [hostname] with an empty argument. *)
Theorem setHostname_leading_dot (l : Lift) (h : Host) (w : World) (rest : string) :
  HostName (Network_ (Data l)) = "." +:+ rest ->
  hd EmptyString (strings.Split (HostName (Network_ (Data l))) ".") = EmptyString /\
  exists more,
    calls (setHostname l h w).2 =
      calls w ++ CRun (Command "hostname" [EmptyString]) :: more.
Proof.
  intros Hname.
  assert (Hhost : hd EmptyString (strings.Split (HostName (Network_ (Data l))) ".")
                  = EmptyString).
  { rewrite Hname. change "." with (String "."%char EmptyString).
    rewrite Split_head, append_cons, append_nil, Cut_cons, HasPrefix_char.
    now rewrite Ascii.eqb_refl. }
  split; [exact Hhost|].
  rewrite setHostname_run by (rewrite Hname; discriminate).
  rewrite Hhost.
  destruct (run h (calls w) _); [now eexists|].
  destruct (run h _ (Command "setup-hostname" _)); [now eexists|].
  destruct (openFile h _ _); now eexists.
Qed.

(** ** The MTA step *)


(** ** The NTP step *)

(** X14. With NTP pools or servers in the document, once setup-ntp ran,
    chrony.conf was rendered and moved into place, the step asks
    chronyd to restart and returns no error whatever that request
    answers. *)
Theorem ntpSetup_restart_not_fatal (l : Lift) (h : Host) (w : World)
    (ntp : NTP) (chrony : string) :
  let setup := CRun (Command "setup-ntp" ["-c"; "chrony"]) in
  let render := CGenerateFile chronyConf (OfData (Data l)) in
  let move := CRun (Command "mv" [chrony; "/etc/chrony/chrony.conf"]) in
  NTP_ (Network_ (Data l)) = Some ntp ->
  Pools ntp <> [] \/ Servers ntp <> [] ->
  run h (calls w) (Command "setup-ntp" ["-c"; "chrony"]) = nil_error ->
  generateFile h (calls w ++ [setup]) chronyConf (OfData (Data l))
    = (chrony, nil_error) ->
  run h (calls w ++ [setup; render]) (Command "mv" [chrony; "/etc/chrony/chrony.conf"])
    = nil_error ->
  (ntpSetup l h w).1 = nil_error /\
  calls (ntpSetup l h w).2 =
    calls w ++ [setup; render; move; CService "chronyd" RESTART].
Proof.
  intros setup render move Hntp Hlists Hrun Hgen Hmv. subst setup render move.
  unfold ntpSetup. rewrite Hntp.
  assert (Hguard : (0 <? length (Pools ntp))%nat || (0 <? length (Servers ntp))%nat
                   = true).
  { destruct Hlists as [H|H]; [destruct (Pools ntp)|destruct (Servers ntp)];
      try done. now rewrite orb_true_r. }
  rewrite Hguard. unfold chronyConfFile. mred. rewrite Hrun. simpl. rewrite Hgen. simpl.
  rewrite <- app_assoc. simpl. rewrite Hmv. simpl.
  split; [reflexivity|now trace_eq].
Qed.

(** ** The DNS step *)

Lemma length_append (a b : string) :
  String.length (a +:+ b) = (String.length a + String.length b)%nat.
Proof.
  induction a as [|c a IH]; [reflexivity|].
  rewrite append_cons. simpl. now rewrite IH.
Qed.

Lemma Cut_first (x : string) (c : ascii) (rest : string) :
  strings.Contains x (String c "") = false ->
  strings.Cut (x +:+ String c "" +:+ rest) (String c "") = Some (x, rest).
Proof.
  intros Hx. induction x as [|a x IH].
  - rewrite append_nil, append_cons, append_nil, Cut_cons, HasPrefix_char.
    now rewrite Ascii.eqb_refl.
  - rewrite Contains_cons, HasPrefix_char in Hx.
    apply orb_false_iff in Hx as [Ha Hx].
    rewrite append_cons, Cut_cons, HasPrefix_char, Ha. now rewrite IH.
Qed.

Lemma Cut_absent (x : string) (c : ascii) :
  strings.Contains x (String c "") = false -> strings.Cut x (String c "") = None.
Proof.
  intros Hx. induction x as [|a x IH]; [reflexivity|].
  rewrite Contains_cons, HasPrefix_char in Hx.
  apply orb_false_iff in Hx as [Ha Hx].
  rewrite Cut_cons, HasPrefix_char, Ha. now rewrite IH.
Qed.

Lemma Join_cons2 (x y : string) (l : list string) (sep : string) :
  strings.Join (x :: y :: l) sep = x +:+ sep +:+ strings.Join (y :: l) sep.
Proof. reflexivity. Qed.

Lemma Join_length (x : string) (l : list string) (c : ascii) :
  (length l <= String.length (strings.Join (x :: l) (String c "")))%nat.
Proof.
  revert x. induction l as [|y l IH]; intros x; [simpl; lia|].
  rewrite Join_cons2, !length_append. specialize (IH y). simpl in *. lia.
Qed.

Lemma Split_from_Join (l : list string) (x : string) (c : ascii) (fuel : nat) :
  Forall (fun s => strings.Contains s (String c "") = false) (x :: l) ->
  (length l <= fuel)%nat ->
  strings.Split_from fuel (strings.Join (x :: l) (String c "")) (String c "") = x :: l.
Proof.
  revert x fuel. induction l as [|y l IH]; intros x fuel Hall Hfuel.
  - inversion Hall; subst. destruct fuel; [reflexivity|].
    cbn [strings.Split_from strings.Join]. now rewrite Cut_absent.
  - inversion Hall; subst. destruct fuel as [|fuel]; [simpl in Hfuel; lia|].
    rewrite Join_cons2. cbn [strings.Split_from]. rewrite Cut_first by assumption.
    f_equal. apply IH; [assumption|simpl in Hfuel; lia].
Qed.

(** Splitting what [Join] made gives the elements back, when there is
    at least one and none contains the separator. *)
Lemma Split_Join (l : list string) (c : ascii) :
  l <> [] ->
  Forall (fun s => strings.Contains s (String c "") = false) l ->
  strings.Split (strings.Join l (String c "")) (String c "") = l.
Proof.
  intros Hne Hall. destruct l as [|x l]; [done|].
  unfold strings.Split. apply Split_from_Join; [exact Hall|apply Join_length].
Qed.

(** X15. The DNS step passes the name servers to setup-dns as one
    argument after [-n], joined by single spaces in the order of the
    document; when no name server contains a space, splitting that
    argument at the spaces gives the list back. *)
Theorem dnsSetup_name_servers_argument (l : Lift) (h : Host) (w : World)
    (rc : ResolvConf) :
  ResolvConf_ (Network_ (Data l)) = Some rc ->
  NameServers rc <> [] ->
  Forall (fun ns => strings.Contains ns " " = false) (NameServers rc) ->
  exists arg,
    calls (dnsSetup l h w).2 =
      calls w ++ [CRun (Command "setup-dns" ["-d"; Domain rc; "-n"; arg])] /\
    strings.Split arg " " = NameServers rc.
Proof.
  intros Hrc Hne Hall. unfold dnsSetup. rewrite Hrc.
  assert (Hlen : (0 <? length (NameServers rc))%nat = true)
    by (now destruct (NameServers rc)).
  rewrite Hlen. exists (strings.Join (NameServers rc) " ").
  split; [|now apply (Split_Join _ " "%char)].
  mred. now destruct (run h (calls w) _).
Qed.

(** ** The network step *)

Ltac xred :=
  unfold Ext.networkSetup, Ext.runInterfaces, Ext.drpSetup, Ext.installDrpcli,
    Ext.installDrpcliService, Ext.alpineSetup in *;
  unfold Ext.Debug, Ext.Debugf, Ext.Info, Ext.Infof, Ext.WithField_Debug,
    Ext.Run, Ext.RunInput, Ext.doService, Ext.downloadFile, Ext.WriteFile_,
    Ext.generateFileFromTemplate, Ext.StdinPipe, Ext.StdinWrite, Ext.StdinClose,
    Ext.StatNotExist, Ext.xafter in *;
  unfold Ext.xbind, Ext.xret, Ext.xcall, Ext.xlog in *; simpl.

(** The end of the network step, call by call. *)
Lemma runInterfaces_run (cmd : Cmd) (h : Ext.XHost) (w : Ext.XWorld) :
  let run := Ext.Base (CRun cmd) in
  let restart := Ext.Base (CService "networking" RESTART) in
  Ext.runInterfaces cmd h w =
    match Ext.xrun h (Ext.xcalls w) cmd with
    | Some e => (Some e, Ext.xafter w [run])
    | None =>
        (nil_error,
         {| Ext.xcalls := Ext.xcalls w ++ [run; restart];
            Ext.xlogs :=
              Ext.xlogs w ++
              match Ext.xservice h (Ext.xcalls w ++ [run]) "networking" RESTART with
              | Some e => [{| level := InfoLevel; fields := []; message := "%v";
                              margs := [ArgE e] |}]
              | None => []
              end |})
    end.
Proof.
  intros run restart. xred.
  destruct (Ext.xrun h (Ext.xcalls w) cmd); simpl; [reflexivity|].
  destruct (Ext.xservice h _ "networking" RESTART); simpl;
    rewrite <- ?app_assoc, ?app_nil_r; reflexivity.
Qed.

(** The network step up to the run of setup-interfaces. *)
Lemma networkSetup_run (l : Lift) (h : Ext.XHost) (w : Ext.XWorld) :
  let opts := InterfaceOpts (Network_ (Data l)) in
  let cmd := Command "setup-interfaces" ["-i"] in
  let piped := {| Name := "setup-interfaces"; Args := ["-i"]; Env := None;
                  Stdin := FromPipe; Stdout := Unset; Stderr := Unset |} in
  let debug := fun msg =>
    {| level := DebugLevel; fields := []; message := msg; margs := [] |} in
  Ext.networkSetup l h w =
    if String.eqb opts "" then
      Ext.runInterfaces (Command "setup-interfaces" ["-a"]) h
        {| Ext.xcalls := Ext.xcalls w;
           Ext.xlogs := Ext.xlogs w ++
                        [debug "No interface specification defined; auto-config"] |}
    else
      match Ext.xstdinPipe h (Ext.xcalls w) cmd with
      | Some e =>
          (Some e,
           {| Ext.xcalls := Ext.xcalls w ++ [Ext.CStdinPipe cmd];
              Ext.xlogs := Ext.xlogs w ++ [debug "Apply interface specification"] |})
      | None =>
          Ext.runInterfaces piped h
            {| Ext.xcalls := Ext.xcalls w ++
                 [Ext.CStdinPipe cmd; Ext.CStdinWrite cmd opts; Ext.CStdinClose cmd];
               Ext.xlogs := Ext.xlogs w ++ [debug "Apply interface specification"] |}
      end.
Proof.
  intros opts cmd piped debug. unfold Ext.networkSetup. fold opts.
  destruct (String.eqb opts ""); [reflexivity|].
  unfold Ext.xbind at 1. unfold Ext.Debug at 1, Ext.xlog at 1. cbv beta iota.
  unfold Ext.xbind at 1. unfold Ext.StdinPipe at 1, Ext.xcall at 1.
  cbv beta iota. cbn [Ext.xcalls Ext.xlogs]. fold cmd.
  destruct (Ext.xstdinPipe h (Ext.xcalls w) cmd); [reflexivity|].
  unfold Ext.xbind at 1. unfold Ext.StdinWrite at 1, Ext.xcall at 1. cbv beta iota.
  unfold Ext.xbind at 1. unfold Ext.StdinClose at 1, Ext.xcall at 1. cbv beta iota.
  cbn [Ext.xcalls Ext.xlogs]. now rewrite <- !app_assoc.
Qed.

(** X16. The network step fails only where opening the pipe to
    setup-interfaces or setup-interfaces itself fails: an error it
    returns is the answer to its last call, which is one of these two.
    A failed restart of networking never fails it. *)
Theorem networkSetup_fails_only_at_pipe_or_command (l : Lift) (h : Ext.XHost)
    (w : Ext.XWorld) (e : error_value) :
  let r := Ext.networkSetup l h w in
  r.1 = Some e ->
  exists tr cmd,
    Name cmd = "setup-interfaces" /\
    ((Ext.xstdinPipe h tr cmd = Some e /\ Ext.xcalls r.2 = tr ++ [Ext.CStdinPipe cmd]) \/
     (Ext.xrun h tr cmd = Some e /\ Ext.xcalls r.2 = tr ++ [Ext.Base (CRun cmd)])).
Proof.
  intros r. subst r. rewrite networkSetup_run.
  destruct (String.eqb (InterfaceOpts (Network_ (Data l))) "").
  - rewrite runInterfaces_run. cbn [Ext.xcalls].
    destruct (Ext.xrun h (Ext.xcalls w) _) as [e'|] eqn:Erun; [|discriminate].
    intros [= ->]. exists (Ext.xcalls w), (Command "setup-interfaces" ["-a"]).
    split; [reflexivity|]. right. now split.
  - destruct (Ext.xstdinPipe h (Ext.xcalls w) _) as [e'|] eqn:Epipe.
    { intros [= ->]. exists (Ext.xcalls w), (Command "setup-interfaces" ["-i"]).
      split; [reflexivity|]. left. now split. }
    rewrite runInterfaces_run. cbn [Ext.xcalls Ext.xlogs].
    match goal with |- context [Ext.xrun h ?tr ?c] =>
      destruct (Ext.xrun h tr c) as [e'|] eqn:Erun; [|discriminate];
      intros [= ->]; exists tr, c end.
    split; [reflexivity|]. right. now split.
Qed.

(** X17. With interface options in the document, once the pipe is open
    the step writes the options to the standard input of
    setup-interfaces and closes it before it runs [setup-interfaces -i];
    without options it runs [setup-interfaces -a] and opens no pipe. *)
Theorem networkSetup_feeds_options_first (l : Lift) (h : Ext.XHost) (w : Ext.XWorld) :
  let opts := InterfaceOpts (Network_ (Data l)) in
  let cmd := Command "setup-interfaces" ["-i"] in
  let piped := {| Name := "setup-interfaces"; Args := ["-i"]; Env := None;
                  Stdin := FromPipe; Stdout := Unset; Stderr := Unset |} in
  (opts <> EmptyString ->
   Ext.xstdinPipe h (Ext.xcalls w) cmd = nil_error ->
   exists more,
     Ext.xcalls (Ext.networkSetup l h w).2 =
       Ext.xcalls w ++
       [Ext.CStdinPipe cmd; Ext.CStdinWrite cmd opts; Ext.CStdinClose cmd;
        Ext.Base (CRun piped)] ++ more) /\
  (opts = EmptyString ->
   exists more,
     Ext.xcalls (Ext.networkSetup l h w).2 =
       Ext.xcalls w ++ Ext.Base (CRun (Command "setup-interfaces" ["-a"])) :: more /\
     forall c, ~ In (Ext.CStdinPipe c) more).
Proof.
  intros opts cmd piped. rewrite networkSetup_run. fold opts cmd piped. split.
  - intros Hne Hpipe. apply String.eqb_neq in Hne. rewrite Hne, Hpipe.
    rewrite runInterfaces_run. cbn [Ext.xcalls Ext.xlogs].
    destruct (Ext.xrun h _ piped); eexists; unfold Ext.xafter; cbn [Ext.xcalls fst snd];
      rewrite <- !app_assoc; simpl; reflexivity.
  - intros Hempty. rewrite Hempty. cbn [String.eqb].
    rewrite runInterfaces_run. cbn [Ext.xcalls Ext.xlogs].
    destruct (Ext.xrun h _ _).
    + exists []. split; [reflexivity|]. intros c [].
    + eexists. split; [cbn [snd Ext.xcalls]; reflexivity|].
      intros c [H|[]]. discriminate H.
Qed.

(** X18. When setup-interfaces has run, a restart of networking that
    fails with [e] leaves the step without error; [e] goes to the log
    at level Info. *)
Theorem networkSetup_restart_failure_logged (l : Lift) (h : Ext.XHost)
    (w : Ext.XWorld) (e : error_value) :
  let r := Ext.networkSetup l h w in
  last (Ext.xcalls r.2) = Some (Ext.Base (CService "networking" RESTART)) ->
  Ext.xservice h (removelast (Ext.xcalls r.2)) "networking" RESTART = Some e ->
  r.1 = nil_error /\
  last (Ext.xlogs r.2) =
    Some {| level := InfoLevel; fields := []; message := "%v"; margs := [ArgE e] |}.
Proof.
  intros r. subst r.
  assert (Hend : forall cmd w1,
    last (Ext.xcalls (Ext.runInterfaces cmd h w1).2)
      = Some (Ext.Base (CService "networking" RESTART)) ->
    Ext.xservice h (removelast (Ext.xcalls (Ext.runInterfaces cmd h w1).2))
      "networking" RESTART = Some e ->
    (Ext.runInterfaces cmd h w1).1 = nil_error /\
    last (Ext.xlogs (Ext.runInterfaces cmd h w1).2) =
      Some {| level := InfoLevel; fields := []; message := "%v";
              margs := [ArgE e] |}).
  { intros cmd w1. rewrite runInterfaces_run.
    destruct (Ext.xrun h (Ext.xcalls w1) cmd) as [e'|].
    - unfold Ext.xafter. cbn [snd Ext.xcalls]. rewrite last_snoc. intros [= H].
    - cbn [fst snd Ext.xcalls Ext.xlogs]. intros _.
      replace (Ext.xcalls w1 ++
               [Ext.Base (CRun cmd); Ext.Base (CService "networking" RESTART)])
        with ((Ext.xcalls w1 ++ [Ext.Base (CRun cmd)]) ++
              [Ext.Base (CService "networking" RESTART)])
        by now rewrite <- app_assoc.
      rewrite removelast_last. intros ->. split; [reflexivity|].
      now rewrite last_snoc. }
  rewrite networkSetup_run.
  destruct (String.eqb (InterfaceOpts (Network_ (Data l))) ""); [apply Hend|].
  destruct (Ext.xstdinPipe h (Ext.xcalls w) _) as [e'|]; [|apply Hend].
  cbn [snd Ext.xcalls]. rewrite last_snoc. intros [= H].
Qed.

(** ** The dr-provision runner *)



(** [drpSetup] as its two halves and the start of the runner. *)
Lemma drpSetup_run (l : Lift) (h : Ext.XHost) (w : Ext.XWorld) :
  Ext.drpSetup l h w =
    match Ext.installDrpcli l h w with
    | (Some e, w1) => (Some e, w1)
    | (None, w1) =>
        match Ext.installDrpcliService l h w1 with
        | (Some e, w2) => (Some e, w2)
        | (None, w2) =>
            (nil_error,
             {| Ext.xcalls := Ext.xcalls w2 ++ [Ext.Base (CService "drpcli" START)];
                Ext.xlogs := Ext.xlogs w2 ++
                  [{| level := InfoLevel; fields := [];
                      message := "Starting dr-provision runner"; margs := [] |}] |})
        end
    end.
Proof.
  unfold Ext.drpSetup. unfold Ext.xbind at 1.
  destruct (Ext.installDrpcli l h w) as [[e|] w1]; [reflexivity|].
  unfold Ext.xbind at 1.
  destruct (Ext.installDrpcliService l h w1) as [[e|] w2]; [reflexivity|].
  reflexivity.
Qed.


(** X20. When the drpcli binary and its service file are both there, the
    step downloads nothing, writes nothing and runs no command: it
    looks at the two files and asks drpcli to start. *)
Theorem drpSetup_installed_only_starts (l : Lift) (h : Ext.XHost) (w : Ext.XWorld) :
  Ext.statNotExist h (Ext.xcalls w) "/usr/local/bin/drpcli" = false ->
  Ext.statNotExist h (Ext.xcalls w ++ [Ext.CStat "/usr/local/bin/drpcli"])
    "/etc/init.d/drpcli" = false ->
  (Ext.drpSetup l h w).1 = nil_error /\
  Ext.xcalls (Ext.drpSetup l h w).2 =
    Ext.xcalls w ++
    [Ext.CStat "/usr/local/bin/drpcli"; Ext.CStat "/etc/init.d/drpcli";
     Ext.Base (CService "drpcli" START)].
Proof.
  intros Hbin Hrc. rewrite drpSetup_run. xred. unfold drpcliBin, drpcliRCFile.
  rewrite Hbin. simpl. rewrite Hrc. simpl.
  split; [reflexivity|now rewrite <- !app_assoc].
Qed.

(** X21. A first installation, on a host where every call succeeds:
    drpcli is downloaded from <AssetsURL>/drpcli.amd64.linux and
    written to /usr/local/bin/drpcli with mode 0755; then the service
    file is rendered, moved to /etc/init.d/drpcli, made executable and
    added to the default runlevel; then drpcli is started. *)
Theorem drpSetup_first_install (l : Lift) (h : Ext.XHost) (w : Ext.XWorld)
    (drpcli rcfile : string) :
  let url := AssetsURL (DRP_ (Data l)) +:+ "/drpcli.amd64.linux" in
  (forall tr path, Ext.statNotExist h tr path = true) ->
  (forall tr, Ext.xdownload h tr url = (drpcli, nil_error)) ->
  (forall tr path data perm, Ext.xwriteFile h tr path data perm = nil_error) ->
  (forall tr, Ext.xrender h tr Ext.drpcliInit (Data l) = (rcfile, nil_error)) ->
  (forall tr c, Ext.xrun h tr c = nil_error) ->
  (Ext.drpSetup l h w).1 = nil_error /\
  Ext.xcalls (Ext.drpSetup l h w).2 =
    Ext.xcalls w ++
    [Ext.CStat "/usr/local/bin/drpcli";
     Ext.Base (CDownloadFile url);
     Ext.Base (CWriteFile "/usr/local/bin/drpcli" drpcli 493);
     Ext.CStat "/etc/init.d/drpcli";
     Ext.CRender Ext.drpcliInit (Data l);
     Ext.Base (CRun (Command "mv" [rcfile; "/etc/init.d/drpcli"]));
     Ext.Base (CRun (Command "chmod" ["+x"; "/etc/init.d/drpcli"]));
     Ext.Base (CRun (Command "rc-update" ["add"; "drpcli"]));
     Ext.Base (CService "drpcli" START)].
Proof.
  intros url Hstat Hdl Hwr Hrender Hrun. rewrite drpSetup_run. xred.
  rewrite !Hstat. simpl. fold url. rewrite Hdl. simpl. rewrite Hwr. simpl.
  rewrite Hstat. simpl. rewrite Hrender. simpl.
  repeat (rewrite Hrun; simpl).
  split; [reflexivity|now rewrite <- !app_assoc].
Qed.

(** ** The base installation *)

(** X22. The base installation fails only when the answer file cannot be
    rendered.  Once it is rendered (to [f]) the step runs
    [setup-alpine -f f] with the root password, twice, one per line, on
    its standard input, and returns no error whatever setup-alpine
    answers. *)
Theorem alpineSetup_ignores_setup_alpine (l : Lift) (h : Ext.XHost) (w : Ext.XWorld) :
  let rendered := Ext.xrender h (Ext.xcalls w) Ext.answerFile (Data l) in
  let passwd := RootPasswd (Data l) in
  let cmd := {| Name := "setup-alpine"; Args := ["-f"; rendered.1]; Env := None;
                Stdin := FromPipe; Stdout := Inherited; Stderr := Unset |} in
  (Ext.alpineSetup l h w).1 = rendered.2 /\
  (rendered.2 = nil_error ->
   Ext.xcalls (Ext.alpineSetup l h w).2 =
     Ext.xcalls w ++
     [Ext.CRender Ext.answerFile (Data l);
      Ext.CRunInput cmd (passwd +:+ strings.nl +:+ passwd +:+ strings.nl)]).
Proof.
  intros rendered passwd cmd. subst rendered cmd passwd. xred.
  destruct (Ext.xrender h (Ext.xcalls w) Ext.answerFile (Data l)) as [f [e|]]; simpl.
  - split; [reflexivity|discriminate].
  - split; [reflexivity|]. intros _. now rewrite <- app_assoc.
Qed.

(** ** The message of the day *)

(** X23. The MOTD step reports success only after /etc/motd was emptied,
    opened, given the message followed by a line feed, and closed; if
    emptying or opening fails nothing is written. *)
Theorem setMOTD_success_means_written (l : Lift) (h : Host) (w : World) :
  let motd := MOTD (Data l) in
  let r := setMOTD l h w in
  motd <> EmptyString ->
  (r.1 = nil_error ->
   calls r.2 =
     calls w ++
     [CTruncate "/etc/motd" 0; COpenFile "/etc/motd" 384;
      CWriteString "/etc/motd" (motd +:+ strings.nl); CClose "/etc/motd"]) /\
  ((exists s, In (CWriteString "/etc/motd" s) (calls r.2) /\
              ~ In (CWriteString "/etc/motd" s) (calls w)) ->
   truncate h (calls w) "/etc/motd" 0 = nil_error /\
   openFile h (calls w ++ [CTruncate "/etc/motd" 0]) "/etc/motd" = nil_error).
Proof.
  intros motd r Hne. subst r. unfold setMOTD. fold motd.
  rewrite (nonempty_true _ Hne). mred.
  destruct (truncate h (calls w) "/etc/motd" 0) as [e|]; simpl.
  { split; [discriminate|]. intros (s & Hin & Hout). exfalso.
    apply in_app_or in Hin as [Hin|[Hin|[]]]; [done|discriminate Hin]. }
  destruct (openFile h _ "/etc/motd") as [e|]; simpl.
  { split; [discriminate|]. intros (s & Hin & Hout). exfalso.
    apply in_app_or in Hin as [Hin|[Hin|[]]]; [|discriminate Hin].
    apply in_app_or in Hin as [Hin|[Hin|[]]]; [done|discriminate Hin]. }
  split; [intros _; now trace_eq|]. intros _. now split.
Qed.

(** ** The properties above on the example hosts *)

Lemma addSSHKeys_two_keys :
  let l := Examples.withKeys ["k1"; "k2"] in
  let path := "/root/.ssh/authorized_keys" in
  (AuthorizedKeys (SSHDConfig (Data l)) <> [] /\
   openFile Examples.okHost [] path = nil_error) /\
  addSSHKeys l Examples.okHost start_world =
    (nil_error,
     after start_world
       [COpenOrCreate path; CWriteString path ("k1" +:+ strings.nl);
        CWriteString path ("k2" +:+ strings.nl); CClose path]).
Proof.
  intros l path. split; [split; [done|reflexivity]|].
  apply (addSSHKeys_appends_each_key l Examples.okHost start_world);
    [done|reflexivity|reflexivity].
Defined.

Lemma addSSHKeys_full_after_first_key :
  let l := Examples.withKeys ["k1"; "k2"; "k3"] in
  let path := "/root/.ssh/authorized_keys" in
  (AuthorizedKeys (SSHDConfig (Data l)) = ["k1"] ++ "k2" :: ["k3"] /\
   writeString MoreExamples.keyFileFull
     [COpenOrCreate path; CWriteString path ("k1" +:+ strings.nl)] path
     ("k2" +:+ strings.nl) = Some (HostError "no space left on device")) /\
  addSSHKeys l MoreExamples.keyFileFull start_world =
    (Some (HostError "no space left on device"),
     after start_world
       [COpenOrCreate path; CWriteString path ("k1" +:+ strings.nl);
        CWriteString path ("k2" +:+ strings.nl); CClose path]).
Proof.
  intros l path. split; [split; reflexivity|].
  apply (addSSHKeys_stops_at_failed_write l MoreExamples.keyFileFull start_world
           ["k1"] "k2" ["k3"] (HostError "no space left on device"));
    [reflexivity|reflexivity| |reflexivity].
  intros pre1 k pre2 H. destruct pre1 as [|k' [|? ?]]; [|destruct pre2|]; try done.
  injection H as <- _. reflexivity.
Defined.

Lemma setupAPK_cannot_delete_b :
  let l := Examples.withPackages MoreExamples.threeDown in
  (~ In "b" ["a"] /\
   (forall tr c, c <> Command "apk" ["del"; "b"] ->
                 run MoreExamples.cannotDelete tr c = nil_error) /\
   (forall tr, run MoreExamples.cannotDelete tr (Command "apk" ["del"; "b"])
               = Some Examples.exit1)) /\
  (setupAPK l MoreExamples.cannotDelete start_world).1 = Some Examples.exit1 /\
  calls (setupAPK l MoreExamples.cannotDelete start_world).2 =
    [CGenerateFile repoFile (OfRepositories []);
     CRun (Command "mv" ["/tmp/lift"; "/etc/apk/repositories"]);
     CRun (Command "apk" ["update"]);
     CRun (Command "apk" ["del"; "a"]);
     CRun (Command "apk" ["del"; "b"])].
Proof.
  intros l.
  assert (H1 : ~ In "b" ["a"]) by (intros [H|[]]; discriminate H).
  assert (H2 : forall tr c, c <> Command "apk" ["del"; "b"] ->
                 run MoreExamples.cannotDelete tr c = nil_error).
  { intros tr c Hc. simpl. now rewrite bool_decide_eq_false_2. }
  assert (H3 : forall tr, run MoreExamples.cannotDelete tr (Command "apk" ["del"; "b"])
               = Some Examples.exit1) by reflexivity.
  split; [exact (conj H1 (conj H2 H3))|].
  exact (setupAPK_failed_uninstall_installs_nothing l MoreExamples.cannotDelete
           start_world "/tmp/lift" ["a"] "b" ["c"] Examples.exit1
           eq_refl H1 eq_refl H2 H3).
Defined.

Lemma diskSetup_bad_disk_fails_at_setup_disk :
  let r := diskSetup strings.ToLowerASCII false (Examples.withScratchDisk "/dev/sdb")
             Examples.dockerAndBadDisk start_world in
  r.1 = Some Examples.exit1 /\
  (((processes Examples.dockerAndBadDisk ([] ++ [CSleep 3])).2 = Some Examples.exit1 /\
    calls r.2 = [] ++ [CSleep 3; CProcesses]) \/
   (exists tr cmd, Name cmd = "setup-disk" /\
                   run Examples.dockerAndBadDisk tr cmd = Some Examples.exit1 /\
                   calls r.2 = tr ++ [CRun cmd])).
Proof.
  intros r. split; [reflexivity|].
  exact (diskSetup_fails_only_at_processes_or_setup_disk strings.ToLowerASCII false
           (Examples.withScratchDisk "/dev/sdb") Examples.dockerAndBadDisk start_world
           Examples.exit1 eq_refl).
Defined.

Lemma diskSetup_dockerd_is_stopped_first :
  let procs := [ {| Executable := "init" |}; {| Executable := "dockerd" |} ] in
  ("/dev/sdb" <> EmptyString /\
   processes Examples.dockerRunning ([] ++ [CSleep 3]) = (procs, nil_error) /\
   existsb (fun p => strings.Contains (strings.ToLowerASCII (Executable p)) "docker")
     procs = true) /\
  exists more,
    calls (diskSetup strings.ToLowerASCII false (Examples.withScratchDisk "/dev/sdb")
             Examples.dockerRunning start_world).2 =
      [] ++ [CSleep 3; CProcesses; CService "docker" STOP; CSleep 2; CGetMounts]
      ++ more.
Proof.
  intros procs. split; [repeat split; done|].
  apply (diskSetup_stops_docker_first strings.ToLowerASCII false
           (Examples.withScratchDisk "/dev/sdb") Examples.dockerRunning start_world
           procs); [done|reflexivity|reflexivity].
Defined.

Lemma diskSetup_unmounts_docker_and_log :
  let l := Examples.withScratchDisk "/dev/sdb" in
  let procs := [ {| Executable := "init" |}; {| Executable := "dockerd" |} ] in
  ("/dev/sdb" <> EmptyString /\
   processes MoreExamples.mountedVar ([] ++ [CSleep 3]) = (procs, nil_error)) /\
  (exists before setup rest,
    Name setup = "setup-disk" /\
    calls (diskSetup strings.ToLowerASCII false l MoreExamples.mountedVar
             start_world).2 =
      before ++ CGetMounts ::
      map (fun mnt => CRun (Command "umount" [Mountpoint mnt]))
          (List.filter (fun mnt => strings.Contains (Mountpoint mnt) "/var")
             (getMounts MoreExamples.mountedVar before).1)
      ++ CRun setup :: rest) /\
  map (fun mnt => CRun (Command "umount" [Mountpoint mnt]))
      (List.filter (fun mnt => strings.Contains (Mountpoint mnt) "/var")
         (getMounts MoreExamples.mountedVar []).1) =
    [CRun (Command "umount" ["/var/lib/docker"]); CRun (Command "umount" ["/var/log"])].
Proof.
  intros l procs. split; [split; [done|reflexivity]|]. split; [|reflexivity].
  apply (diskSetup_unmounts_var_mounts strings.ToLowerASCII false l
           MoreExamples.mountedVar start_world procs); [done|reflexivity].
Defined.

Lemma createFiles_read_only_host_reports_success :
  let l := Examples.withWriteFiles [Examples.fileA; MoreExamples.fileA2] in
  ((forall wf, In wf (WriteFiles (Data l)) ->
      Content wf <> EmptyString /\ Owner wf = EmptyString /\
      (strconv.ParseUint (Permissions wf) 8 32).2 = nil_error) /\
   (forall tr path, mkdirAll MoreExamples.readOnly tr path 457 = nil_error) /\
   (forall tr path data perm,
      writeFile MoreExamples.readOnly tr path data perm
        = Some (HostError "read-only file system"))) /\
  (createFiles Examples.dirOf l MoreExamples.readOnly start_world).1 = nil_error /\
  calls (createFiles Examples.dirOf l MoreExamples.readOnly start_world).2 =
    [CMkdirAll "/etc" 457; CWriteFile "/etc/a" "hello" 420;
     CMkdirAll "/etc" 457; CWriteFile "/etc/a2" "again" 384].
Proof.
  intros l.
  assert (H1 : forall wf, In wf (WriteFiles (Data l)) ->
      Content wf <> EmptyString /\ Owner wf = EmptyString /\
      (strconv.ParseUint (Permissions wf) 8 32).2 = nil_error).
  { intros wf [<-|[<-|[]]]; repeat split; done. }
  assert (H2 : forall tr path, mkdirAll MoreExamples.readOnly tr path 457 = nil_error)
    by reflexivity.
  split; [split; [exact H1|split; [exact H2|reflexivity]]|].
  exact (createFiles_inline_files_never_fail Examples.dirOf l MoreExamples.readOnly
           start_world H1 H2).
Defined.

Lemma createFiles_inline_offline :
  let l := Examples.withWriteFiles [MoreExamples.fileA2; Examples.fileB] in
  (forall wf, In wf (WriteFiles (Data l)) -> Content wf <> EmptyString) /\
  exists new,
    calls (createFiles Examples.dirOf l Examples.offline start_world).2 = [] ++ new /\
    forall url, ~ In (CDownloadFile url) new.
Proof.
  intros l.
  assert (H1 : forall wf, In wf (WriteFiles (Data l)) -> Content wf <> EmptyString).
  { intros wf [<-|[<-|[]]]; done. }
  split; [exact H1|].
  exact (createFiles_inline_content_never_downloads Examples.dirOf l Examples.offline
           start_world H1).
Defined.

Lemma sshdSetup_cannot_patch :
  let l := Examples.withKeys ["k1"] in
  let h := MoreExamples.cannotPatch in
  parseConfig h [] "/etc/ssh/sshd_config" " " (Examples.sshdDirectives l)
    <> nil_error /\
  (sshdSetup Examples.sshdDirectives l h start_world).1 <> nil_error /\
  exists new,
    calls (sshdSetup Examples.sshdDirectives l h start_world).2 = [] ++ new /\
    forall name a, ~ In (CService name a) new.
Proof.
  intros l h.
  assert (H1 : parseConfig h [] "/etc/ssh/sshd_config" " " (Examples.sshdDirectives l)
               <> nil_error) by done.
  split; [exact H1|].
  exact (sshdSetup_no_restart_after_failure Examples.sshdDirectives l h start_world
           (or_introl H1)).
Defined.

Lemma ParseUint_0644 :
  (strconv.ParseUint "0644" 8 32).2 = nil_error /\
  (strconv.ParseUint "0644" 8 32).1 = octalValue "0644" /\
  octalValue "0644" = 420 /\
  ((strconv.ParseUint "0o644" 8 32).2 = nil_error <->
   "0o644" <> EmptyString /\ allOctal "0o644" = true /\ octalValue "0o644" < 2 ^ 32).
Proof.
  split; [reflexivity|]. split; [|split; [reflexivity|]].
  - exact (proj2 (ParseUint_accepts_octal "0644") eq_refl).
  - exact (proj1 (ParseUint_accepts_octal "0o644")).
Defined.

Lemma setHostname_web01_written :
  let l := Examples.withHostName "web01.example.com" in
  ("web01.example.com" <> EmptyString /\
   (setHostname l Examples.okHost start_world).1 = nil_error) /\
  calls (setHostname l Examples.okHost start_world).2 =
    [] ++
    [CRun (Command "hostname" ["web01"]);
     CRun (Command "setup-hostname" ["-n"; "web01"]);
     COpenOrCreate "/etc/hosts";
     CWriteString "/etc/hosts"
       ("127.0.0.1" +:+ strings.tab +:+ "web01.example.com web01" +:+ strings.nl);
     CClose "/etc/hosts"].
Proof.
  intros l. split; [split; [done|reflexivity]|].
  apply (setHostname_success_means_written l Examples.okHost start_world);
    [done|reflexivity].
Defined.

Lemma setHostname_dot_example_com :
  let l := Examples.withHostName ".example.com" in
  HostName (Network_ (Data l)) = "." +:+ "example.com" /\
  hd EmptyString (strings.Split (HostName (Network_ (Data l))) ".") = EmptyString /\
  exists more,
    calls (setHostname l Examples.okHost start_world).2 =
      [] ++ CRun (Command "hostname" [EmptyString]) :: more.
Proof.
  intros l. split; [reflexivity|].
  exact (setHostname_leading_dot l Examples.okHost start_world "example.com" eq_refl).
Defined.


Lemma ntpSetup_chronyd_down :
  let l := MoreExamples.withNTP in
  let h := MoreExamples.chronydDown in
  let setup := CRun (Command "setup-ntp" ["-c"; "chrony"]) in
  let render := CGenerateFile chronyConf (OfData (Data l)) in
  let move := CRun (Command "mv" ["/tmp/lift"; "/etc/chrony/chrony.conf"]) in
  (NTP_ (Network_ (Data l)) = Some MoreExamples.servers /\
   (Pools MoreExamples.servers <> [] \/ Servers MoreExamples.servers <> []) /\
   service h [setup; render; move] "chronyd" RESTART = Some Examples.exit1) /\
  (ntpSetup l h start_world).1 = nil_error /\
  calls (ntpSetup l h start_world).2 =
    [] ++ [setup; render; move; CService "chronyd" RESTART].
Proof.
  intros l h setup render move.
  split; [split; [reflexivity|split; [right; done|reflexivity]]|].
  apply (ntpSetup_restart_not_fatal l h start_world MoreExamples.servers "/tmp/lift");
    [reflexivity|right; done|reflexivity|reflexivity|reflexivity].
Defined.

Lemma dnsSetup_two_name_servers :
  let l := MoreExamples.withDNS in
  (ResolvConf_ (Network_ (Data l)) = Some MoreExamples.resolv /\
   NameServers MoreExamples.resolv <> [] /\
   Forall (fun ns => strings.Contains ns " " = false)
     (NameServers MoreExamples.resolv)) /\
  (exists arg,
    calls (dnsSetup l Examples.okHost start_world).2 =
      [] ++ [CRun (Command "setup-dns" ["-d"; "example.com"; "-n"; arg])] /\
    strings.Split arg " " = ["1.1.1.1"; "8.8.8.8"]) /\
  strings.Join ["1.1.1.1"; "8.8.8.8"] " " = "1.1.1.1 8.8.8.8".
Proof.
  intros l.
  assert (H : Forall (fun ns => strings.Contains ns " " = false)
                (NameServers MoreExamples.resolv)) by (repeat constructor).
  split; [split; [reflexivity|split; [done|exact H]]|]. split; [|reflexivity].
  apply (dnsSetup_name_servers_argument l Examples.okHost start_world
           MoreExamples.resolv); [reflexivity|done|exact H].
Defined.

Lemma networkSetup_no_pipe :
  let l := MoreExamples.withInterfaces in
  let e := HostError "too many open files" in
  (Ext.networkSetup l MoreExamples.xnoPipe Ext.xstart).1 = Some e /\
  exists tr cmd,
    Name cmd = "setup-interfaces" /\
    ((Ext.xstdinPipe MoreExamples.xnoPipe tr cmd = Some e /\
      Ext.xcalls (Ext.networkSetup l MoreExamples.xnoPipe Ext.xstart).2
        = tr ++ [Ext.CStdinPipe cmd]) \/
     (Ext.xrun MoreExamples.xnoPipe tr cmd = Some e /\
      Ext.xcalls (Ext.networkSetup l MoreExamples.xnoPipe Ext.xstart).2
        = tr ++ [Ext.Base (CRun cmd)])).
Proof.
  intros l e. split; [reflexivity|].
  exact (networkSetup_fails_only_at_pipe_or_command l MoreExamples.xnoPipe Ext.xstart
           e eq_refl).
Defined.

Lemma networkSetup_eth0 :
  let l := MoreExamples.withInterfaces in
  let cmd := Command "setup-interfaces" ["-i"] in
  let piped := {| Name := "setup-interfaces"; Args := ["-i"]; Env := None;
                  Stdin := FromPipe; Stdout := Unset; Stderr := Unset |} in
  (MoreExamples.eth0 <> EmptyString /\
   Ext.xstdinPipe MoreExamples.xok [] cmd = nil_error) /\
  (exists more,
     Ext.xcalls (Ext.networkSetup l MoreExamples.xok Ext.xstart).2 =
       [] ++
       [Ext.CStdinPipe cmd; Ext.CStdinWrite cmd MoreExamples.eth0;
        Ext.CStdinClose cmd; Ext.Base (CRun piped)] ++ more) /\
  (exists more,
     Ext.xcalls (Ext.networkSetup {| Data := Examples.emptyData |}
                   MoreExamples.xok Ext.xstart).2 =
       [] ++ Ext.Base (CRun (Command "setup-interfaces" ["-a"])) :: more /\
     forall c, ~ In (Ext.CStdinPipe c) more).
Proof.
  intros l cmd piped. split; [split; [done|reflexivity]|]. split.
  - apply (proj1 (networkSetup_feeds_options_first l MoreExamples.xok Ext.xstart));
      [done|reflexivity].
  - exact (proj2 (networkSetup_feeds_options_first {| Data := Examples.emptyData |}
                    MoreExamples.xok Ext.xstart) eq_refl).
Defined.

Lemma networkSetup_networking_down :
  let r := Ext.networkSetup {| Data := Examples.emptyData |}
             MoreExamples.xnetDown Ext.xstart in
  (last (Ext.xcalls r.2) = Some (Ext.Base (CService "networking" RESTART)) /\
   Ext.xservice MoreExamples.xnetDown (removelast (Ext.xcalls r.2))
     "networking" RESTART = Some Examples.exit1) /\
  r.1 = nil_error /\
  last (Ext.xlogs r.2) =
    Some {| level := InfoLevel; fields := []; message := "%v";
            margs := [ArgE Examples.exit1] |}.
Proof.
  intros r. split; [split; reflexivity|].
  exact (networkSetup_restart_failure_logged {| Data := Examples.emptyData |}
           MoreExamples.xnetDown Ext.xstart Examples.exit1 eq_refl eq_refl).
Defined.

Lemma drpSetup_already_installed :
  let l := MoreExamples.withDRP in
  (Ext.statNotExist MoreExamples.xinstalled [] "/usr/local/bin/drpcli" = false /\
   Ext.statNotExist MoreExamples.xinstalled [Ext.CStat "/usr/local/bin/drpcli"]
     "/etc/init.d/drpcli" = false) /\
  (Ext.drpSetup l MoreExamples.xinstalled Ext.xstart).1 = nil_error /\
  Ext.xcalls (Ext.drpSetup l MoreExamples.xinstalled Ext.xstart).2 =
    [] ++
    [Ext.CStat "/usr/local/bin/drpcli"; Ext.CStat "/etc/init.d/drpcli";
     Ext.Base (CService "drpcli" START)].
Proof.
  intros l. split; [split; reflexivity|].
  apply (drpSetup_installed_only_starts l MoreExamples.xinstalled Ext.xstart);
    reflexivity.
Defined.

Lemma drpSetup_fresh_host :
  let l := MoreExamples.withDRP in
  let url := "http://drp.example.com/files/drpcli.amd64.linux" in
  ((forall tr path, Ext.statNotExist MoreExamples.xok tr path = true) /\
   (forall tr, Ext.xdownload MoreExamples.xok tr url = ("fetched", nil_error)) /\
   (forall tr c, Ext.xrun MoreExamples.xok tr c = nil_error)) /\
  (Ext.drpSetup l MoreExamples.xok Ext.xstart).1 = nil_error /\
  Ext.xcalls (Ext.drpSetup l MoreExamples.xok Ext.xstart).2 =
    [Ext.CStat "/usr/local/bin/drpcli";
     Ext.Base (CDownloadFile url);
     Ext.Base (CWriteFile "/usr/local/bin/drpcli" "fetched" 493);
     Ext.CStat "/etc/init.d/drpcli";
     Ext.CRender Ext.drpcliInit (Data l);
     Ext.Base (CRun (Command "mv" ["/tmp/lift"; "/etc/init.d/drpcli"]));
     Ext.Base (CRun (Command "chmod" ["+x"; "/etc/init.d/drpcli"]));
     Ext.Base (CRun (Command "rc-update" ["add"; "drpcli"]));
     Ext.Base (CService "drpcli" START)].
Proof.
  intros l url. split; [repeat split; reflexivity|].
  apply (drpSetup_first_install l MoreExamples.xok Ext.xstart "fetched" "/tmp/lift");
    reflexivity.
Defined.

Lemma alpineSetup_secret :
  let l := MoreExamples.withDRP in
  let cmd := {| Name := "setup-alpine"; Args := ["-f"; "/tmp/lift"]; Env := None;
                Stdin := FromPipe; Stdout := Inherited; Stderr := Unset |} in
  (Ext.xrender MoreExamples.xok [] Ext.answerFile (Data l)).2 = nil_error /\
  (Ext.alpineSetup l MoreExamples.xok Ext.xstart).1 = nil_error /\
  Ext.xcalls (Ext.alpineSetup l MoreExamples.xok Ext.xstart).2 =
    [Ext.CRender Ext.answerFile (Data l);
     Ext.CRunInput cmd ("secret" +:+ strings.nl +:+ "secret" +:+ strings.nl)].
Proof.
  intros l cmd. split; [reflexivity|].
  destruct (alpineSetup_ignores_setup_alpine l MoreExamples.xok Ext.xstart) as [H1 H2].
  split; [exact H1|exact (H2 eq_refl)].
Defined.

Lemma setMOTD_welcome :
  let l := {| Data :=
              {| Network_ := Examples.noNetwork;
                 SSHDConfig := {| AuthorizedKeys := [] |};
                 Packages_ := Examples.noPackages; MTA_ := None; ScratchDisk := "";
                 DRP_ := {| AssetsURL := "" |}; WriteFiles := [];
                 MOTD := "Welcome"; RootPasswd := "" |} |} in
  let r := setMOTD l Examples.okHost start_world in
  ("Welcome" <> EmptyString /\ r.1 = nil_error) /\
  calls r.2 =
    [] ++
    [CTruncate "/etc/motd" 0; COpenFile "/etc/motd" 384;
     CWriteString "/etc/motd" ("Welcome" +:+ strings.nl); CClose "/etc/motd"].
Proof.
  intros l r. split; [split; [done|reflexivity]|].
  apply (proj1 (setMOTD_success_means_written l Examples.okHost start_world
                  ltac:(done)) eq_refl).
Defined.
